(** * Rubik's cube on a 2D net: the cube-state model of [Rubic_Cube_2D.py]

    A shallow embedding of the cube representation, of the face-turn
    operator and of what the user interface computes, followed by the
    properties the specification states about them and by further
    properties of the code.

    Modelling conventions.
    - A sticker is a Python single-letter string; a face is a list of rows,
      each a list of stickers; the cube is a dictionary from face names to
      faces, modelled as a [gmap string].
    - Python exceptions are values of [PyError]; a computation that may
      raise returns a [Result].  The dictionary is passed explicitly: a
      function that mutates [cube] in place returns the mutated dictionary.
    - The rows of distinct faces are distinct list objects (this is what
      [make_solved_cube], [rotate_face_matrix], [set_row] and [set_col]
      produce), so faces are modelled by value.
    - [for f in cube] visits the keys in insertion order; the model visits
      them in the order of [map_to_list].  The two agree on every result
      that does not depend on the order of the visit. *)

From stdpp Require Import gmap strings list fin_maps.

Local Open Scope string_scope.
Local Open Scope list_scope.

(** ** Exceptions *)

Inductive PyError : Type :=
  | KeyError (key : string)
  | IndexError
  | TypeError.

Inductive Result (A : Type) : Type :=
  | Ok (a : A)
  | Raise (e : PyError).

Arguments Ok {A} a.
Arguments Raise {A} e.

#[global] Instance Result_ret : MRet Result := fun A a => Ok a.

#[global] Instance Result_bind : MBind Result := fun A B k m =>
  match m with
  | Ok a => k a
  | Raise e => Raise e
  end.

(** [for x in xs: acc = body(acc, x)], stopping at the first exception. *)
Fixpoint for_each {A S : Type} (body : S -> A -> Result S) (xs : list A) (s : S)
  : Result S :=
  match xs with
  | [] => Ok s
  | x :: xs' => s' ← body s x; for_each body xs' s'
  end.

(** [[body(x) for x in xs]]. *)
Fixpoint comprehension {A B : Type} (body : A -> Result B) (xs : list A)
  : Result (list B) :=
  match xs with
  | [] => Ok []
  | x :: xs' => y ← body x; ys ← comprehension body xs'; Ok (y :: ys)
  end.

(** [l[i]] for a non-negative [i]. *)
Definition index {A : Type} (l : list A) (i : nat) : Result A :=
  match l !! i with
  | Some x => Ok x
  | None => Raise IndexError
  end.

(** [l[i] = x] for a non-negative [i]. *)
Definition store {A : Type} (l : list A) (i : nat) (x : A) : Result (list A) :=
  if decide (i < length l) then Ok (<[i := x]> l) else Raise IndexError.

(** [d[k]] on a dictionary. *)
Definition getitem {V : Type} (d : gmap string V) (k : string) : Result V :=
  match d !! k with
  | Some v => Ok v
  | None => Raise (KeyError k)
  end.

(** [zip] applied to the unpacked [rows]: the columns of [rows], cut at the
    shortest row. *)
Fixpoint zip_star {A : Type} (rows : list (list A)) : list (list A) :=
  match rows with
  | [] => []
  | [r] => map (fun x => [x]) r
  | r :: rs => zip_with cons r (zip_star rs)
  end.

(** ** Cube representation *)

Definition FACE_ORDER : list string := ["U"; "L"; "F"; "R"; "B"; "D"].

Definition STARTING_COLORS : list (string * string) :=
  [("U", "W"); ("D", "Y"); ("L", "O"); ("R", "R"); ("F", "G"); ("B", "B")].

Definition range3 : list nat := [0; 1; 2].

Definition make_solved_cube : gmap string (list (list string)) :=
  foldl (fun cube fc =>
           <[fc.1 := map (fun _ => map (fun _ => fc.2) range3) range3]> cube)
        ∅ STARTING_COLORS.

Definition rotate_face_matrix (face_mat : list (list string)) (clockwise : bool)
  : list (list string) :=
  if clockwise then map (@rev string) (zip_star face_mat)
  else rev (zip_star (rev face_mat)).

Definition get_row (face : list (list string)) (idx : nat)
  : Result (list string) :=
  index face idx.

Definition set_row (face : list (list string)) (idx : nat) (values : list string)
  : Result (list (list string)) :=
  store face idx values.

Definition get_col (face : list (list string)) (idx : nat)
  : Result (list string) :=
  comprehension (fun r => row ← index face r; index row idx) range3.

Definition set_col (face : list (list string)) (idx : nat) (values : list string)
  : Result (list (list string)) :=
  for_each (fun face r =>
              v ← index values r;
              row ← index face r;
              row' ← store row idx v;
              store face r row')
           range3 face.

(** The two kinds of strip, and an entry [(adj_face, 'row'/'col', index,
    reverse_flag)] of a face's sequence. *)
Inductive StripKind : Type := row | col.

Definition Strip : Type := (string * StripKind * nat * bool)%type.

(** The [if]/[elif] chain on [face_name]; [None] is the final [else]. *)
Definition adjacent_strips (face_name : string) : option (list Strip) :=
  if decide (face_name = "U") then
    Some [("B", row, 0, false); ("R", row, 0, false);
          ("F", row, 0, false); ("L", row, 0, false)]
  else if decide (face_name = "D") then
    Some [("F", row, 2, false); ("R", row, 2, false);
          ("B", row, 2, false); ("L", row, 2, false)]
  else if decide (face_name = "F") then
    Some [("U", row, 2, false); ("R", col, 0, true);
          ("D", row, 0, true); ("L", col, 2, false)]
  else if decide (face_name = "B") then
    Some [("U", row, 0, true); ("L", col, 0, true);
          ("D", row, 2, false); ("R", col, 2, false)]
  else if decide (face_name = "L") then
    Some [("U", col, 0, false); ("F", col, 0, false);
          ("D", col, 0, false); ("B", col, 2, true)]
  else if decide (face_name = "R") then
    Some [("U", col, 2, false); ("B", col, 0, true);
          ("D", col, 2, false); ("F", col, 2, false)]
  else None.

(** The loop that reads the four strips. *)
Definition read_strip (cube : gmap string (list (list string))) (s : Strip)
  : Result (list string) :=
  let '(af, typ, idx, rv) := s in
  face ← getitem cube af;
  p ← match typ with
      | row => get_row face idx
      | col => get_col face idx
      end;
  Ok (if rv : bool then rev p else p).

(** [[parts[-1]] + parts[:-1]] and [parts[1:] + [parts[0]]]. *)
Definition shift_parts (parts : list (list string)) (clockwise : bool)
  : Result (list (list string)) :=
  if clockwise then
    lst ← index parts (length parts - 1); Ok ([lst] ++ removelast parts)
  else
    first ← index parts 0; Ok (tail parts ++ [first]).

(** The body of the loop that writes the strips back. *)
Definition write_strip (cube : gmap string (list (list string)))
    (sd : Strip * list string) : Result (gmap string (list (list string))) :=
  let '((af, typ, idx, rv), data) := sd in
  let out := if rv : bool then rev data else data in
  face ← getitem cube af;
  face' ← match typ with
          | row => set_row face idx out
          | col => set_col face idx out
          end;
  Ok (<[af := face']> cube).

Definition rotate_cube_face (cube : gmap string (list (list string)))
    (face_name : string) (clockwise : bool)
  : Result (gmap string (list (list string))) :=
  face ← getitem cube face_name;
  let cube := <[face_name := rotate_face_matrix face clockwise]> cube in
  match adjacent_strips face_name with
  | None => Ok cube
  | Some seq =>
      parts ← comprehension (read_strip cube) seq;
      parts ← shift_parts parts clockwise;
      for_each write_strip (zip seq parts) cube
  end.

(** A loop whose body may [return]: [Some v] is the value returned from
    inside the loop, [None] means that the loop ran to its end. *)
Fixpoint for_return {A R : Type} (body : A -> Result (option R)) (xs : list A)
  : Result (option R) :=
  match xs with
  | [] => Ok None
  | x :: xs' =>
      o ← body x;
      match o with
      | Some v => Ok (Some v)
      | None => for_return body xs'
      end
  end.

(** [random.choice(seq)], the draw being supplied by the caller. *)
Definition random_choice {A : Type} (seq : list A) (draw : nat) : Result A :=
  index seq (draw mod length seq).

Definition scramble_faces : list string := ["U"; "D"; "L"; "R"; "F"; "B"].

(** [rng] is the stream of draws of the random generator; each move takes
    two of them. *)
Fixpoint scramble_cube (cube : gmap string (list (list string))) (moves : nat)
    (rng : nat -> nat) : Result (gmap string (list (list string))) :=
  match moves with
  | 0 => Ok cube
  | S moves' =>
      f ← random_choice scramble_faces (rng 0);
      cw ← random_choice [true; false] (rng 1);
      cube' ← rotate_cube_face cube f cw;
      scramble_cube cube' moves' (fun i => rng (2 + i))
  end.

(** The test in the innermost loop of [is_solved], the body of its loop over
    the faces, and the function. *)
Definition check_cell (cube : gmap string (list (list string))) (f col : string)
    (r c : nat) : Result (option bool) :=
  face ← getitem cube f;
  line ← index face r;
  x ← index line c;
  if decide (x ≠ col) then Ok (Some false) else Ok None.

Definition check_face (cube : gmap string (list (list string))) (f : string)
  : Result (option bool) :=
  face ← getitem cube f;
  row0 ← index face 0;
  col ← index row0 0;
  for_return (fun r => for_return (check_cell cube f col r) range3) range3.

Definition is_solved (cube : gmap string (list (list string))) : Result bool :=
  o ← for_return (check_face cube) (map_to_list cube).*1;
  Ok (default true o).

(** ** Vocabulary of the specification *)

(** A 3x3 grid, and a cube state: a dictionary that holds a 3x3 grid for each
    of the six faces. *)
Definition is_grid (face : list (list string)) : bool :=
  bool_decide (length face = 3)
  && forallb (fun r => bool_decide (length r = 3)) face.

Definition is_cube (cube : gmap string (list (list string))) : bool :=
  forallb (fun f => match cube !! f with
                    | Some face => is_grid face
                    | None => false
                    end) FACE_ORDER.

(** The sticker at [(r, c)] of a grid, and of a face of the cube. *)
Definition cell (face : list (list string)) (r c : nat) : option string :=
  line ← face !! r; line !! c.

Definition sticker (cube : gmap string (list (list string))) (f : string)
    (r c : nat) : option string :=
  face ← cube !! f; cell face r c.

(** The 54 stickers, face by face in [FACE_ORDER], row by row. *)
Definition stickers (cube : gmap string (list (list string))) : list string :=
  concat (map (fun f => concat (default [] (cube !! f))) FACE_ORDER).

(** The opposite pairs: Up-Down, Left-Right, Front-Back. *)
Definition opposite (f : string) : string :=
  if decide (f = "U") then "D"
  else if decide (f = "D") then "U"
  else if decide (f = "L") then "R"
  else if decide (f = "R") then "L"
  else if decide (f = "F") then "B"
  else "F".

Definition strip_face (s : Strip) : string := s.1.1.1.

Definition strip_index (s : Strip) : nat := s.1.2.

(** [on_strip k r c s]: the cell [(r, c)] of face [k] lies on the strip [s]. *)
Definition on_strip (k : string) (r c : nat) (s : Strip) : bool :=
  let '(af, typ, idx, _) := s in
  bool_decide (af = k)
  && match typ with
     | row => bool_decide (r = idx)
     | col => bool_decide (c = idx)
     end.

(** The cells a turn of [f] may write: those of [f], and those of its strips. *)
Definition touched (f k : string) (r c : nat) : bool :=
  bool_decide (k = f)
  || existsb (on_strip k r c) (default [] (adjacent_strips f)).

(** The dictionary with exactly the six given faces. *)
Definition six (u d l r f b : list (list string))
  : gmap string (list (list string)) :=
  <["U" := u]> (<["D" := d]> (<["L" := l]> (<["R" := r]> (<["F" := f]>
    (<["B" := b]> ∅))))).

(** The turn of [f] followed by the turn of [f] the other way, and four
    turns of [f] the same way. *)
Definition turn_and_back (cube : gmap string (list (list string)))
    (f : string) : Result (gmap string (list (list string))) :=
  cube ← rotate_cube_face cube f true;
  rotate_cube_face cube f false.

Definition four_turns (cube : gmap string (list (list string)))
    (f : string) : Result (gmap string (list (list string))) :=
  cube ← rotate_cube_face cube f true;
  cube ← rotate_cube_face cube f true;
  cube ← rotate_cube_face cube f true;
  rotate_cube_face cube f true.

(** A grid whose nine stickers are told apart, and the solved cube after a
    clockwise turn of the right face. *)
Definition numbered : list (list string) :=
  [["1"; "2"; "3"]; ["4"; "5"; "6"]; ["7"; "8"; "9"]].

(** A dictionary with a seventh entry. *)
Definition seven : gmap string (list (list string)) :=
  <["X" := numbered]> make_solved_cube.

(** A cube whose six faces are all white. *)
Definition all_white : gmap string (list (list string)) :=
  let w := [["W"; "W"; "W"]; ["W"; "W"; "W"]; ["W"; "W"; "W"]] in
  six w w w w w w.

(** The six faces of a dictionary, and a turn seen on the six faces. *)
Definition faces_of (m : gmap string (list (list string)))
  : option (list (list (list string))) :=
  u ← m !! "U"; d ← m !! "D"; l ← m !! "L";
  r ← m !! "R"; f ← m !! "F"; b ← m !! "B";
  Some [u; d; l; r; f; b].

Definition turn_faces (u d l r f b : list (list string)) (face_name : string)
    (clockwise : bool) : option (list (list (list string))) :=
  match rotate_cube_face (six u d l r f b) face_name clockwise with
  | Ok m => faces_of m
  | Raise _ => None
  end.

(** ** Repeated turns *)

(** [n] turns of the same face in the same direction. *)
Fixpoint repeat_turn (n : nat) (cube : gmap string (list (list string)))
    (f : string) (clockwise : bool)
  : Result (gmap string (list (list string))) :=
  match n with
  | 0 => Ok cube
  | S n' =>
      cube ← rotate_cube_face cube f clockwise;
      repeat_turn n' cube f clockwise
  end.

(** ** Pygame UI

    What the user interface computes: the rectangles [draw_cube_net] asks
    pygame to draw, and the effect of the events on the cube, the message and
    the [running] flag.  The calls to [pygame.draw.rect] are modelled by the
    list of their arguments, in the order of the calls; a rectangle is the
    one that [pygame.Rect] builds, which may refuse its arguments.  The
    rendering of text, the clock and the final [sys.exit()] are left out. *)

Definition CELL : Z := 40.
Definition PADDING : Z := 10.
Definition MARGIN : Z := 20.

Definition NET_POS : list (string * (Z * Z)) :=
  [("U", (0, 1)); ("L", (1, 0)); ("F", (1, 1));
   ("R", (1, 2)); ("B", (1, 3)); ("D", (2, 1))]%Z.

Definition COLOR_MAP : gmap string (Z * Z * Z) :=
  list_to_map
    [("W", (255, 255, 255)); ("Y", (255, 255, 0)); ("O", (255, 165, 0));
     ("R", (200, 0, 0)); ("G", (0, 180, 0)); ("B", (0, 0, 200));
     ("X", (30, 30, 30))]%Z.

(** [pygame.draw.rect(screen, color, pygame.Rect(left, top, width, height),
    width)]; the line width is 0 for a filled rectangle. *)
Inductive DrawCmd : Type :=
  | DrawRect (color : Z * Z * Z) (rect : Z * Z * Z * Z) (width : Z).

(** The corner [(fx, fy)] of a face of the net, the rectangle of a cell and
    the rectangle of the border of a face. *)
Definition face_corner (top_left : Z * Z) (pos : Z * Z) : Z * Z :=
  (top_left.1 + pos.2 * (CELL * 3 + PADDING),
   top_left.2 + pos.1 * (CELL * 3 + PADDING))%Z.

Definition cell_rect (top_left : Z * Z) (pos : Z * Z) (r c : nat)
  : Z * Z * Z * Z :=
  let '(fx, fy) := face_corner top_left pos in
  (fx + Z.of_nat c * CELL, fy + Z.of_nat r * CELL, CELL - 1, CELL - 1)%Z.

Definition border_rect (top_left : Z * Z) (pos : Z * Z) : Z * Z * Z * Z :=
  let '(fx, fy) := face_corner top_left pos in
  (fx, fy, 3 * CELL - 1, 3 * CELL - 1)%Z.

(** [pygame.Rect(left, top, width, height)] on Python integers.  pygame
    reads each argument as a C [long] and keeps it in a C [int]: with a
    [long] of 64 bits and an [int] of 32, an argument outside the range of a
    [long] is refused with [TypeError], and one inside it is cut to its low
    32 bits. *)
Definition in_c_long (v : Z) : bool :=
  ((- 9223372036854775808 <=? v) && (v <? 9223372036854775808))%Z.

Definition c_int (v : Z) : Z :=
  ((v + 2147483648) mod 4294967296 - 2147483648)%Z.

Definition pygame_Rect (rect : Z * Z * Z * Z) : Result (Z * Z * Z * Z) :=
  let '(x, y, w, h) := rect in
  if forallb in_c_long [x; y; w; h]
  then Ok (c_int x, c_int y, c_int w, c_int h)
  else Raise TypeError.

(** The body of the innermost loop of [draw_cube_net]. *)
Definition draw_cell (cube : gmap string (list (list string)))
    (top_left : Z * Z) (face : string) (pos : Z * Z) (r c : nat)
  : Result DrawCmd :=
  grid ← getitem cube face;
  line ← index grid r;
  color_char ← index line c;
  fallback ← getitem COLOR_MAP "X";
  let color := default fallback (COLOR_MAP !! color_char) in
  rect ← pygame_Rect (cell_rect top_left pos r c);
  Ok (DrawRect color rect 0).

Definition draw_cube_net (cube : gmap string (list (list string)))
    (top_left : Z * Z) : Result (list DrawCmd) :=
  for_each (fun screen '(face, pos) =>
      screen ← for_each (fun screen r =>
          for_each (fun screen c =>
              cmd ← draw_cell cube top_left face pos r c;
              Ok (screen ++ [cmd]))
            range3 screen)
        range3 screen;
      border ← pygame_Rect (border_rect top_left pos);
      Ok (screen ++ [DrawRect (20, 20, 20)%Z border 2]))
    NET_POS [].

(** The key codes [pygame.K_s], ... are constants of pygame; the model takes
    them as a parameter. *)
Record Keys : Type := {
  K_s : Z;
  K_SPACE : Z;
  K_c : Z;
  K_ESCAPE : Z;
  K_q : Z
}.

(** An event: [pygame.QUIT], [pygame.KEYDOWN] with its [unicode] and [key],
    or an event of another type. *)
Inductive Event : Type :=
  | QUIT
  | KEYDOWN (unicode : string) (key : Z)
  | OtherEvent.

(** The variables of [main] that the events change, and the stream of the
    draws left in the random generator. *)
Record Session : Type := {
  ui_cube : gmap string (list (list string));
  ui_message : string;
  ui_running : bool;
  ui_random : nat -> nat
}.

(** One of the six branches [ch in ('U', 'u')], ... *)
Definition rotate_key (st : Session) (face ch : string) : Result Session :=
  let cw := bool_decide (ch = face) in
  cube ← rotate_cube_face (ui_cube st) face cw;
  Ok {| ui_cube := cube;
        ui_message :=
          "Rotated " +:+ face +:+ " " +:+ (if cw then "CW" else "CCW");
        ui_running := ui_running st;
        ui_random := ui_random st |}.

(** The body of [for event in pygame.event.get()]. *)
Definition handle_event (keys : Keys) (st : Session) (event : Event)
  : Result Session :=
  match event with
  | QUIT =>
      Ok {| ui_cube := ui_cube st; ui_message := ui_message st;
            ui_running := false; ui_random := ui_random st |}
  | KEYDOWN ch key =>
      if bool_decide (ch ∈ ["U"; "u"]) then rotate_key st "U" ch
      else if bool_decide (ch ∈ ["D"; "d"]) then rotate_key st "D" ch
      else if bool_decide (ch ∈ ["L"; "l"]) then rotate_key st "L" ch
      else if bool_decide (ch ∈ ["R"; "r"]) then rotate_key st "R" ch
      else if bool_decide (ch ∈ ["F"; "f"]) then rotate_key st "F" ch
      else if bool_decide (ch ∈ ["B"; "b"]) then rotate_key st "B" ch
      else if bool_decide (key = K_s keys) then
        cube ← scramble_cube (ui_cube st) 25 (ui_random st);
        Ok {| ui_cube := cube; ui_message := "Scrambled";
              ui_running := ui_running st;
              ui_random := fun i => ui_random st (50 + i) |}
      else if bool_decide (key = K_SPACE keys) then
        Ok {| ui_cube := make_solved_cube; ui_message := "Reset to solved";
              ui_running := ui_running st; ui_random := ui_random st |}
      else if bool_decide (key = K_c keys) then
        solved ← is_solved (ui_cube st);
        Ok {| ui_cube := ui_cube st;
              ui_message := if solved : bool then "Solved!"
                            else "Not solved yet.";
              ui_running := ui_running st; ui_random := ui_random st |}
      else if bool_decide (key ∈ [K_ESCAPE keys; K_q keys]) then
        Ok {| ui_cube := ui_cube st; ui_message := ui_message st;
              ui_running := false; ui_random := ui_random st |}
      else Ok st
  | OtherEvent => Ok st
  end.

(** The [while running] loop of [main]: [frames] holds, frame by frame, the
    events that [pygame.event.get()] returns. *)
Fixpoint main_loop (keys : Keys) (frames : list (list Event)) (st : Session)
  : Result Session :=
  match frames with
  | [] => Ok st
  | events :: frames' =>
      if ui_running st then
        _ ← draw_cube_net (ui_cube st) (MARGIN, MARGIN);
        st ← for_each (handle_event keys) events st;
        main_loop keys frames' st
      else Ok st
  end.

Definition main (keys : Keys) (frames : list (list Event)) (rng : nat -> nat)
  : Result Session :=
  main_loop keys frames
    {| ui_cube := make_solved_cube;
       ui_message := "Welcome! Press S to scramble.";
       ui_running := true;
       ui_random := rng |}.

(** The window of [main], and the points at which it blits the lines of the
    instructions (the top-left corners of the rendered lines). *)
Definition screen_w : Z := 800.
Definition screen_h : Z := 420.

Definition instructions : list string :=
  ["Controls:";
   " U / u : Up face clockwise / counterclockwise";
   " D / d : Down face clockwise / counterclockwise";
   " L / l : Left face cw / ccw";
   " R / r : Right face cw / ccw";
   " F / f : Front face cw / ccw";
   " B / b : Back face cw / ccw";
   " S : Scramble (25 random moves)";
   " C : Check solved";
   " Space : Reset to solved";
   " Esc or Q : Quit"].

Definition instruction_positions : list (Z * Z) :=
  let x0 := (3 * (CELL * 3 + PADDING) + MARGIN + 20)%Z in
  let y0 := MARGIN in
  imap (fun i _ => (x0, y0 + Z.of_nat i * 22)%Z) instructions.

(** A point of a rectangle, and a rectangle inside the window. *)
Definition inside (p : Z * Z) (rect : Z * Z * Z * Z) : Prop :=
  let '(x, y, w, h) := rect in
  (x <= p.1 < x + w /\ y <= p.2 < y + h)%Z.

Definition on_screen (rect : Z * Z * Z * Z) : Prop :=
  let '(x, y, w, h) := rect in
  (0 <= x /\ x + w <= screen_w /\ 0 <= y /\ y + h <= screen_h)%Z.

(** What every cube that [main] holds satisfies: it is a cube state with
    the six faces and nothing else, its stickers are those of the solved cube
    up to their order, and every centre holds its starting colour. *)
Definition playable (cube : gmap string (list (list string))) : Prop :=
  is_cube cube = true /\
  dom cube = list_to_set FACE_ORDER /\
  stickers cube ≡ₚ stickers make_solved_cube /\
  forall f color,
    In (f, color) STARTING_COLORS -> sticker cube f 1 1 = Some color.

(** Every coordinate that [draw_cube_net] passes to [pygame.Rect] for the
    net at [top_left] lies between [- bound] and [bound]: the net spans 470
    pixels to the right of [top_left] and 340 pixels below it. *)
Definition net_within (bound : Z) (top_left : Z * Z) : Prop :=
  (- bound <= top_left.1 /\
   top_left.1 + 3 * (CELL * 3 + PADDING) + 2 * CELL < bound /\
   - bound <= top_left.2 /\
   top_left.2 + 2 * (CELL * 3 + PADDING) + 2 * CELL < bound)%Z.

(** Two rectangles [(left, top, width, height)] that share no pixel. *)
Definition disjoint_rects (a b : Z * Z * Z * Z) : Prop :=
  let '(x1, y1, w1, h1) := a in
  let '(x2, y2, w2, h2) := b in
  (x1 + w1 <= x2 \/ x2 + w2 <= x1 \/ y1 + h1 <= y2 \/ y2 + h2 <= y1)%Z.

(** ** The error monad *)

Lemma bind_Ok {A B : Type} (a : A) (k : A -> Result B) : (Ok a ≫= k) = k a.
Proof. reflexivity. Qed.

Lemma bind_Ok_inv {A B : Type} (m : Result A) (k : A -> Result B) (b : B) :
  (m ≫= k) = Ok b -> exists a, m = Ok a /\ k a = Ok b.
Proof. destruct m as [a|e]; [eauto | discriminate]. Qed.

Lemma getitem_Ok {V : Type} (d : gmap string V) (k : string) (v : V) :
  getitem d k = Ok v <-> d !! k = Some v.
Proof. unfold getitem. destruct (d !! k); split; congruence. Qed.

(** ** Frame: faces outside the dictionary do not matter *)

Section Frame.
Variable rest : gmap string (list (list string)).

Lemma getitem_frame (m : gmap string (list (list string))) k v :
  getitem m k = Ok v -> getitem (m ∪ rest) k = Ok v.
Proof.
  rewrite !getitem_Ok. intros H. by apply lookup_union_Some_l.
Qed.

Lemma read_strip_frame m s p :
  read_strip m s = Ok p -> read_strip (m ∪ rest) s = Ok p.
Proof.
  destruct s as [[[af typ] idx] rv]. unfold read_strip.
  intros (face & Hf & H)%bind_Ok_inv.
  by rewrite (getitem_frame _ _ _ Hf), bind_Ok.
Qed.

Lemma read_parts_frame m seq ps :
  comprehension (read_strip m) seq = Ok ps ->
  comprehension (read_strip (m ∪ rest)) seq = Ok ps.
Proof.
  revert ps. induction seq as [|s seq IH]; intros ps; [done|].
  cbn [comprehension].
  intros (p & Hp & (ps' & Hps & H)%bind_Ok_inv)%bind_Ok_inv.
  by rewrite (read_strip_frame _ _ _ Hp), bind_Ok, (IH _ Hps), bind_Ok.
Qed.

Lemma write_strip_frame m sd m' :
  write_strip m sd = Ok m' -> write_strip (m ∪ rest) sd = Ok (m' ∪ rest).
Proof.
  destruct sd as [[[[af typ] idx] rv] data]. unfold write_strip.
  intros (face & Hf & (face' & Hw & H)%bind_Ok_inv)%bind_Ok_inv.
  rewrite (getitem_frame _ _ _ Hf), bind_Ok, Hw, bind_Ok.
  injection H as <-. by rewrite insert_union_l.
Qed.

Lemma write_parts_frame l m m' :
  for_each write_strip l m = Ok m' ->
  for_each write_strip l (m ∪ rest) = Ok (m' ∪ rest).
Proof.
  revert m. induction l as [|sd l IH]; intros m; cbn [for_each].
  - by intros [= ->].
  - intros (m1 & H1 & H)%bind_Ok_inv.
    rewrite (write_strip_frame _ _ _ H1), bind_Ok. by apply IH.
Qed.

Lemma rotate_cube_face_frame m f cw m' :
  rotate_cube_face m f cw = Ok m' ->
  rotate_cube_face (m ∪ rest) f cw = Ok (m' ∪ rest).
Proof.
  unfold rotate_cube_face.
  intros (face & Hf & H)%bind_Ok_inv.
  rewrite (getitem_frame _ _ _ Hf), bind_Ok. rewrite insert_union_l.
  destruct (adjacent_strips f) as [seq|].
  - apply bind_Ok_inv in H as (ps & Hps & (ps' & Hsh & H)%bind_Ok_inv).
    rewrite (read_parts_frame _ _ _ Hps), bind_Ok, Hsh, bind_Ok.
    by apply write_parts_frame.
  - by injection H as <-.
Qed.
End Frame.

(** ** Cube states, face by face *)

Lemma is_grid_inv (face : list (list string)) :
  is_grid face = true ->
  exists x00 x01 x02 x10 x11 x12 x20 x21 x22,
    face = [[x00; x01; x02]; [x10; x11; x12]; [x20; x21; x22]].
Proof.
  unfold is_grid. intros [Hl Hr]%andb_prop.
  apply bool_decide_eq_true in Hl.
  destruct face as [|r0 [|r1 [|r2 [|]]]]; try discriminate Hl.
  cbn in Hr.
  repeat (apply andb_prop in Hr as [?%bool_decide_eq_true Hr]).
  destruct r0 as [|? [|? [|? [|]]]]; try discriminate.
  destruct r1 as [|? [|? [|? [|]]]]; try discriminate.
  destruct r2 as [|? [|? [|? [|]]]]; try discriminate.
  by repeat eexists.
Qed.

Lemma is_cube_inv (cube : gmap string (list (list string))) :
  is_cube cube = true ->
  exists u d l r f b rest,
    (is_grid u = true /\ is_grid d = true /\ is_grid l = true /\
     is_grid r = true /\ is_grid f = true /\ is_grid b = true) /\
    cube = six u d l r f b ∪ rest.
Proof.
  unfold is_cube. cbn [forallb FACE_ORDER].
  destruct (cube !! "U") as [u|] eqn:HU; [|done].
  destruct (cube !! "L") as [l|] eqn:HL; [|by rewrite andb_false_r].
  destruct (cube !! "F") as [f|] eqn:HF; [|by rewrite !andb_false_r].
  destruct (cube !! "R") as [r|] eqn:HR; [|by rewrite !andb_false_r].
  destruct (cube !! "B") as [b|] eqn:HB; [|by rewrite !andb_false_r].
  destruct (cube !! "D") as [d|] eqn:HD; [|by rewrite !andb_false_r].
  intros H. repeat (apply andb_prop in H as [? H]).
  exists u, d, l, r, f, b, cube. split; [done|].
  apply map_eq. intros k. symmetry.
  destruct (six u d l r f b !! k) as [v|] eqn:Hk.
  - rewrite (lookup_union_Some_l _ _ _ _ Hk). symmetry. revert Hk. unfold six.
    rewrite !lookup_insert_Some, lookup_empty. intuition congruence.
  - by rewrite lookup_union_r.
Qed.

Lemma lookup_frame (m rest : gmap string (list (list string))) k v :
  m !! k = Some v -> (m ∪ rest) !! k = Some v.
Proof. apply lookup_union_Some_l. Qed.

(** Name the 54 stickers of a cube state. *)
Ltac name_stickers H :=
  let Hg := fresh "Hg" in
  let Hc := fresh "Hc" in
  apply is_cube_inv in H as (?u & ?d & ?l & ?r & ?f & ?b & ?rest & Hg & ->);
  destruct Hg as
    ((? & ? & ? & ? & ? & ? & ? & ? & ? & ->)%is_grid_inv &
     (? & ? & ? & ? & ? & ? & ? & ? & ? & ->)%is_grid_inv &
     (? & ? & ? & ? & ? & ? & ? & ? & ? & ->)%is_grid_inv &
     (? & ? & ? & ? & ? & ? & ? & ? & ? & ->)%is_grid_inv &
     (? & ? & ? & ? & ? & ? & ? & ? & ? & ->)%is_grid_inv &
     (? & ? & ? & ? & ? & ? & ? & ? & ? & ->)%is_grid_inv).

(** ** A turn writes only the turned face and the faces of its strips *)

Lemma write_strip_other m sd m' k :
  write_strip m sd = Ok m' -> strip_face sd.1 ≠ k -> m' !! k = m !! k.
Proof.
  destruct sd as [[[[af typ] idx] rv] data]. unfold write_strip, strip_face.
  intros (face & Hf & (face' & Hw & H)%bind_Ok_inv)%bind_Ok_inv Hk.
  injection H as <-. by apply lookup_insert_ne.
Qed.

Lemma write_strip_None m sd m' k :
  write_strip m sd = Ok m' -> m !! k = None -> m' !! k = None.
Proof.
  intros H Hk. rewrite (write_strip_other _ _ _ _ H); [done|].
  destruct sd as [[[[af typ] idx] rv] data]. unfold write_strip in H.
  apply bind_Ok_inv in H as (face & Hf%getitem_Ok & _).
  unfold strip_face. cbn. congruence.
Qed.

Lemma write_parts_other l m m' k :
  for_each write_strip l m = Ok m' ->
  Forall (fun sd => strip_face sd.1 ≠ k) l -> m' !! k = m !! k.
Proof.
  revert m. induction l as [|sd l IH]; intros m; cbn [for_each].
  - by intros [= ->].
  - intros (m1 & H1 & H)%bind_Ok_inv [Hsd Hl]%Forall_cons.
    rewrite (IH _ H Hl). by apply (write_strip_other _ _ _ _ H1).
Qed.

Lemma write_parts_None l m m' k :
  for_each write_strip l m = Ok m' -> m !! k = None -> m' !! k = None.
Proof.
  revert m. induction l as [|sd l IH]; intros m; cbn [for_each].
  - by intros [= ->].
  - intros (m1 & H1 & H)%bind_Ok_inv Hk.
    apply (IH _ H). by apply (write_strip_None _ _ _ _ H1).
Qed.

Lemma Forall_zip_fst {A B : Type} (P : A -> Prop) (xs : list A) (ys : list B) :
  Forall P xs -> Forall (fun xy => P xy.1) (zip xs ys).
Proof.
  intros H. revert ys. induction H as [|x xs Hx _ IH]; intros [|y ys]; cbn;
    constructor; auto.
Qed.

Lemma rotate_cube_face_other m f cw m' k :
  rotate_cube_face m f cw = Ok m' ->
  f ≠ k ->
  Forall (fun s => strip_face s ≠ k) (default [] (adjacent_strips f)) ->
  m' !! k = m !! k.
Proof.
  unfold rotate_cube_face.
  intros (face & Hf & H)%bind_Ok_inv Hk Hs.
  destruct (adjacent_strips f) as [seq|]; cbn in Hs.
  - apply bind_Ok_inv in H as (ps & Hps & (ps' & Hsh & H)%bind_Ok_inv).
    rewrite (write_parts_other _ _ _ k H).
    + by apply lookup_insert_ne.
    + by apply (Forall_zip_fst (fun s => strip_face s ≠ k)).
  - injection H as <-. by apply lookup_insert_ne.
Qed.

Lemma rotate_cube_face_None m f cw m' k :
  rotate_cube_face m f cw = Ok m' -> m !! k = None -> m' !! k = None.
Proof.
  unfold rotate_cube_face.
  intros (face & Hf%getitem_Ok & H)%bind_Ok_inv Hk.
  assert (<[f := rotate_face_matrix face cw]> m !! k = None) as Hk'.
  { rewrite lookup_insert_ne; [done | congruence]. }
  destruct (adjacent_strips f) as [seq|].
  - apply bind_Ok_inv in H as (ps & Hps & (ps' & Hsh & H)%bind_Ok_inv).
    by apply (write_parts_None _ _ _ _ H).
  - by injection H as <-.
Qed.

(** A turn keeps the keys of the dictionary. *)
Lemma write_strip_is_Some m sd m' k :
  write_strip m sd = Ok m' -> is_Some (m' !! k) <-> is_Some (m !! k).
Proof.
  destruct sd as [[[[af typ] idx] rv] data]. unfold write_strip.
  intros (face & Hf%getitem_Ok & (face' & Hw & H)%bind_Ok_inv)%bind_Ok_inv.
  injection H as <-. destruct (decide (af = k)) as [->|Hne].
  - rewrite lookup_insert_eq, Hf. split; eauto.
  - by rewrite lookup_insert_ne.
Qed.

Lemma write_parts_is_Some l m m' k :
  for_each write_strip l m = Ok m' -> is_Some (m' !! k) <-> is_Some (m !! k).
Proof.
  revert m. induction l as [|sd l IH]; intros m; cbn [for_each].
  - by intros [= ->].
  - intros (m1 & H1 & H)%bind_Ok_inv.
    rewrite (IH _ H). by apply (write_strip_is_Some _ _ _ _ H1).
Qed.

Lemma rotate_cube_face_dom (cube : gmap string (list (list string)))
    f cw cube' :
  rotate_cube_face cube f cw = Ok cube' -> dom cube' = dom cube.
Proof.
  intros H. apply set_eq. intros k. rewrite !elem_of_dom.
  unfold rotate_cube_face in H.
  apply bind_Ok_inv in H as (face & Hf%getitem_Ok & H).
  assert (is_Some (<[f := rotate_face_matrix face cw]> cube !! k)
          <-> is_Some (cube !! k)) as <-.
  { destruct (decide (f = k)) as [->|Hne].
    - rewrite lookup_insert_eq, Hf. split; eauto.
    - by rewrite lookup_insert_ne. }
  destruct (adjacent_strips f) as [seq|].
  - apply bind_Ok_inv in H as (ps & Hps & (ps' & Hsh & H)%bind_Ok_inv).
    by apply (write_parts_is_Some _ _ _ _ H).
  - by injection H as <-.
Qed.

(** ** A turn, face by face *)

Lemma six_lookup_None u d l r f b k :
  ~ In k FACE_ORDER -> six u d l r f b !! k = None.
Proof.
  intros Hk. unfold six.
  rewrite !lookup_insert_ne, ?lookup_empty; [done|..];
    intros <-; apply Hk; cbn; tauto.
Qed.

Lemma faces_of_six m u d l r f b :
  faces_of m = Some [u; d; l; r; f; b] ->
  (forall k, ~ In k FACE_ORDER -> m !! k = None) ->
  m = six u d l r f b.
Proof.
  unfold faces_of. intros H Hout.
  destruct (m !! "U") as [u'|] eqn:HU; [|done].
  destruct (m !! "D") as [d'|] eqn:HD; [|done].
  destruct (m !! "L") as [l'|] eqn:HL; [|done].
  destruct (m !! "R") as [r'|] eqn:HR; [|done].
  destruct (m !! "F") as [f'|] eqn:HF; [|done].
  destruct (m !! "B") as [b'|] eqn:HB; [|done].
  cbn in H. injection H as -> -> -> -> -> ->.
  apply map_eq. intros k. unfold six.
  destruct (decide (k = "U")) as [->|]; [by rewrite lookup_insert_eq|].
  rewrite lookup_insert_ne by done.
  destruct (decide (k = "D")) as [->|]; [by rewrite lookup_insert_eq|].
  rewrite lookup_insert_ne by done.
  destruct (decide (k = "L")) as [->|]; [by rewrite lookup_insert_eq|].
  rewrite lookup_insert_ne by done.
  destruct (decide (k = "R")) as [->|]; [by rewrite lookup_insert_eq|].
  rewrite lookup_insert_ne by done.
  destruct (decide (k = "F")) as [->|]; [by rewrite lookup_insert_eq|].
  rewrite lookup_insert_ne by done.
  destruct (decide (k = "B")) as [->|]; [by rewrite lookup_insert_eq|].
  rewrite lookup_insert_ne by done.
  rewrite lookup_empty. apply Hout. cbn. intuition congruence.
Qed.

Lemma turn_six u d l r f b rest fn cw u' d' l' r' f' b' :
  turn_faces u d l r f b fn cw = Some [u'; d'; l'; r'; f'; b'] ->
  rotate_cube_face (six u d l r f b ∪ rest) fn cw
  = Ok (six u' d' l' r' f' b' ∪ rest).
Proof.
  unfold turn_faces.
  destruct (rotate_cube_face (six u d l r f b) fn cw) as [m|] eqn:Hm; [|done].
  intros Hf. rewrite (rotate_cube_face_frame rest _ _ _ _ Hm).
  do 2 f_equal. apply faces_of_six; [done|].
  intros k Hk. apply (rotate_cube_face_None _ _ _ _ _ Hm).
  by apply six_lookup_None.
Qed.

(** Run one turn on the six named faces and carry the rest over. *)
Ltac turn_step :=
  erewrite turn_six by (vm_compute; reflexivity); rewrite ?bind_Ok.

Ltac face_cases H :=
  cbn in H; destruct H as [<-|[<-|[<-|[<-|[<-|[<-|[]]]]]]].

Lemma six_lookup u d l r f b rest :
  (six u d l r f b ∪ rest) !! "U" = Some u /\
  (six u d l r f b ∪ rest) !! "D" = Some d /\
  (six u d l r f b ∪ rest) !! "L" = Some l /\
  (six u d l r f b ∪ rest) !! "R" = Some r /\
  (six u d l r f b ∪ rest) !! "F" = Some f /\
  (six u d l r f b ∪ rest) !! "B" = Some b.
Proof.
  repeat split; apply lookup_frame; unfold six;
    rewrite ?lookup_insert_ne by done; apply lookup_insert_eq.
Qed.

Lemma six_lookup_other u d l r f b rest k :
  ~ In k FACE_ORDER -> (six u d l r f b ∪ rest) !! k = rest !! k.
Proof. intros Hk. apply lookup_union_r. by apply six_lookup_None. Qed.

(** Replace the lookups of the six faces by the faces. *)
Ltac six_lookups :=
  repeat match goal with
  | |- context [(six ?u ?d ?l ?r ?f ?b ∪ ?rest) !! ?k] =>
      first
        [ rewrite (proj1 (six_lookup u d l r f b rest))
        | rewrite (proj1 (proj2 (six_lookup u d l r f b rest)))
        | rewrite (proj1 (proj2 (proj2 (six_lookup u d l r f b rest))))
        | rewrite (proj1 (proj2 (proj2 (proj2
                     (six_lookup u d l r f b rest)))))
        | rewrite (proj1 (proj2 (proj2 (proj2 (proj2
                     (six_lookup u d l r f b rest))))))
        | rewrite (proj2 (proj2 (proj2 (proj2 (proj2
                     (six_lookup u d l r f b rest)))))) ]
  end.

Lemma is_cube_six u d l r f b rest :
  is_grid u = true -> is_grid d = true -> is_grid l = true ->
  is_grid r = true -> is_grid f = true -> is_grid b = true ->
  is_cube (six u d l r f b ∪ rest) = true.
Proof.
  intros Hu Hd Hl Hr Hf Hb. unfold is_cube. cbn [forallb FACE_ORDER].
  six_lookups. by rewrite Hu, Hd, Hl, Hr, Hf, Hb.
Qed.

(** A turn of one of the six faces of a cube state succeeds, and gives a
    cube state. *)
Lemma rotate_cube_face_is_cube cube f cw :
  is_cube cube = true -> In f FACE_ORDER ->
  exists cube', rotate_cube_face cube f cw = Ok cube' /\ is_cube cube' = true.
Proof.
  intros Hc Hf. name_stickers Hc. face_cases Hf; destruct cw.
  all: eexists; split; [turn_step; reflexivity|].
  all: by apply is_cube_six.
Qed.

(** ** The laws of the turn operator *)

(** C3. For every cube state and each of the six faces, four clockwise
    turns of the face in succession restore the exact prior state. *)
Theorem four_turns_identity cube f :
  is_cube cube = true -> In f FACE_ORDER -> four_turns cube f = Ok cube.
Proof.
  intros Hc Hf. name_stickers Hc. unfold four_turns. face_cases Hf.
  all: do 4 turn_step.
  all: reflexivity.
Qed.

Lemma four_turns_identity_solved :
  is_cube make_solved_cube = true /\ In "F" FACE_ORDER /\
  four_turns make_solved_cube "F" = Ok make_solved_cube.
Proof.
  split; [vm_compute; reflexivity|].
  split; [cbn; tauto|].
  apply (four_turns_identity make_solved_cube "F");
    [vm_compute; reflexivity | cbn; tauto].
Defined.

Lemma stickers_six u d l r f b rest :
  stickers (six u d l r f b ∪ rest)
  = concat u ++ concat l ++ concat f ++ concat r ++ concat b ++ concat d.
Proof.
  unfold stickers. cbn [map FACE_ORDER]. six_lookups. cbn [default concat].
  by rewrite app_nil_r.
Qed.

(** Permutations of explicit lists: bring the head of the left list to the
    front of the right one. *)
Ltac split_at x r k :=
  lazymatch r with
  | x :: ?r2 => k (@nil string) r2
  | ?y :: ?r1 => split_at x r1 ltac:(fun l1 l2 => k (y :: l1) l2)
  end.

Ltac permutation_by_heads :=
  repeat first
    [ apply Permutation_refl
    | apply perm_skip
    | lazymatch goal with
      | |- ?x :: ?l ≡ₚ ?r =>
          split_at x r ltac:(fun l1 l2 =>
            apply (@Permutation_cons_app _ l l1 l2 x); cbn [app])
      end ].

(** C4. For every cube state, every face and both directions, a turn
    permutes the 54 stickers: the stickers before and after the call are the
    same up to their order. *)
Theorem rotate_cube_face_permutes cube f cw :
  is_cube cube = true -> In f FACE_ORDER ->
  exists cube',
    rotate_cube_face cube f cw = Ok cube' /\
    length (stickers cube) = 54 /\
    stickers cube' ≡ₚ stickers cube.
Proof.
  intros Hc Hf. name_stickers Hc. face_cases Hf; destruct cw.
  all: eexists; split; [turn_step; reflexivity|].
  all: rewrite !stickers_six; split; [reflexivity|].
  all: cbn [concat app]; permutation_by_heads.
Qed.

Lemma rotate_cube_face_permutes_solved :
  is_cube make_solved_cube = true /\ In "B" FACE_ORDER /\
  exists cube',
    rotate_cube_face make_solved_cube "B" false = Ok cube' /\
    length (stickers make_solved_cube) = 54 /\
    stickers cube' ≡ₚ stickers make_solved_cube.
Proof.
  split; [vm_compute; reflexivity|].
  split; [cbn; tauto|].
  apply (rotate_cube_face_permutes make_solved_cube "B" false);
    [vm_compute; reflexivity | cbn; tauto].
Defined.

Lemma face_or_other (P : string -> Prop) :
  (forall k, In k FACE_ORDER -> P k) ->
  (forall k, ~ In k FACE_ORDER -> P k) ->
  forall k, P k.
Proof.
  intros Hin Hout k. destruct (decide (k ∈ FACE_ORDER)) as [H|H];
    rewrite list_elem_of_In in H; auto.
Qed.

(** ** The rotation of a 3x3 grid *)

(** The clockwise branch sends the sticker at [(r, c)] to [(c, 2 - r)]. *)
Lemma rotate_face_matrix_clockwise face r c :
  is_grid face = true -> r < 3 -> c < 3 ->
  cell (rotate_face_matrix face true) c (2 - r) = cell face r c.
Proof.
  intros (? & ? & ? & ? & ? & ? & ? & ? & ? & ->)%is_grid_inv Hr Hc.
  destruct r as [|[|[|r]]]; [| | |lia];
    (destruct c as [|[|[|c]]]; [| | |lia]); reflexivity.
Qed.

(** The other branch sends the sticker at [(r, c)] to [(2 - c, 2 - r)]: it
    mirrors the grid in its anti-diagonal. *)
Lemma rotate_face_matrix_other_branch face r c :
  is_grid face = true -> r < 3 -> c < 3 ->
  cell (rotate_face_matrix face false) (2 - c) (2 - r) = cell face r c.
Proof.
  intros (? & ? & ? & ? & ? & ? & ? & ? & ? & ->)%is_grid_inv Hr Hc.
  destruct r as [|[|[|r]]]; [| | |lia];
    (destruct c as [|[|[|c]]]; [| | |lia]); reflexivity.
Qed.

(** The clockwise branch followed by the other branch mirrors every row. *)
Lemma rotate_face_matrix_there_and_back face :
  is_grid face = true ->
  rotate_face_matrix (rotate_face_matrix face true) false = map (@rev string) face.
Proof.
  by intros (? & ? & ? & ? & ? & ? & ? & ? & ? & ->)%is_grid_inv.
Qed.

(** C2. On the grid numbered 1 to 9 row by row, the clockwise branch gives
    the clockwise rotation, and the branch for [clockwise = False] gives the
    mirror image in the anti-diagonal: the sticker of [(0, 0)] lands on
    [(2, 2)], where a counterclockwise rotation puts it on [(2, 0)], and the
    branch does not undo the clockwise one. *)
Theorem rotate_face_matrix_numbered :
  rotate_face_matrix numbered true
  = [["7"; "4"; "1"]; ["8"; "5"; "2"]; ["9"; "6"; "3"]] /\
  rotate_face_matrix numbered false
  = [["9"; "6"; "3"]; ["8"; "5"; "2"]; ["7"; "4"; "1"]] /\
  cell numbered 0 0 = Some "1" /\
  cell (rotate_face_matrix numbered false) 2 0 = Some "7" /\
  cell (rotate_face_matrix numbered false) 2 2 = Some "1" /\
  rotate_face_matrix (rotate_face_matrix numbered true) false
  = [["3"; "2"; "1"]; ["6"; "5"; "4"]; ["9"; "8"; "7"]].
Proof. repeat split. Qed.

(** A turn and the turn back mirror the rows of the turned face and restore
    every other face. *)
Lemma turn_and_back_mirrors cube f :
  is_cube cube = true -> In f FACE_ORDER ->
  exists face cube',
    cube !! f = Some face /\
    turn_and_back cube f = Ok cube' /\
    cube' !! f = Some (map (@rev string) face) /\
    forall k, k ≠ f -> cube' !! k = cube !! k.
Proof.
  intros Hc Hf. name_stickers Hc. unfold turn_and_back. face_cases Hf.
  all: eexists; eexists; split; [by six_lookups|].
  all: split; [do 2 turn_step; reflexivity|].
  all: split; [by six_lookups|].
  all: apply (face_or_other (fun k => _ -> _ !! k = _ !! k));
    [intros k Hk Hne; face_cases Hk;
       first [exfalso; apply Hne; reflexivity | six_lookups; reflexivity]
    |intros k Hk _; by rewrite !six_lookup_other].
Qed.

(** C1. On the cube reached from the solved one by a clockwise turn of the
    right face, a clockwise turn of the front face followed by the turn the
    other way does not give the cube back: the rows of the front face come
    back mirrored. *)
Theorem turn_and_back_after_R :
  (cube ← rotate_cube_face make_solved_cube "R" true;
   getitem cube "F")
  = Ok [["G"; "G"; "Y"]; ["G"; "G"; "Y"]; ["G"; "G"; "Y"]] /\
  (cube ← rotate_cube_face make_solved_cube "R" true;
   cube ← turn_and_back cube "F";
   getitem cube "F")
  = Ok [["Y"; "G"; "G"]; ["Y"; "G"; "G"]; ["Y"; "G"; "G"]].
Proof. split; vm_compute; reflexivity. Qed.

(** ** The adjacency table at work *)

(** A clockwise turn of the front face writes the former column 2 of the
    left face, top to bottom, into row 2 of the upper face, left to right. *)
Lemma front_turn_up_row cube :
  is_cube cube = true ->
  (cube' ← rotate_cube_face cube "F" true;
   up ← getitem cube' "U";
   get_row up 2)
  = (left ← getitem cube "L"; get_col left 2).
Proof.
  intros Hc. name_stickers Hc. turn_step. unfold getitem. six_lookups.
  reflexivity.
Qed.

(** C5. The strips of the front face are those of the table, the strips of
    the upper and of the left face without the reverse flag; and starting
    from the solved cube, a clockwise turn of the front face makes row 2 of
    the upper face equal to the former column 2 of the left face.  The same
    holds, in this order, from every cube state. *)
Theorem front_turn_from_solved :
  adjacent_strips "F"
  = Some [("U", row, 2, false); ("R", col, 0, true);
          ("D", row, 0, true); ("L", col, 2, false)] /\
  (cube' ← rotate_cube_face make_solved_cube "F" true;
   up ← getitem cube' "U";
   get_row up 2)
  = (left ← getitem make_solved_cube "L"; get_col left 2) /\
  (left ← getitem make_solved_cube "L"; get_col left 2)
  = Ok ["O"; "O"; "O"] /\
  forall cube,
    is_cube cube = true ->
    (cube' ← rotate_cube_face cube "F" true;
     up ← getitem cube' "U";
     get_row up 2)
    = (left ← getitem cube "L"; get_col left 2).
Proof.
  split; [reflexivity|].
  split; [vm_compute; reflexivity|].
  split; [vm_compute; reflexivity|].
  apply front_turn_up_row.
Qed.

Lemma front_turn_from_solved_witness :
  is_cube make_solved_cube = true /\
  (cube' ← rotate_cube_face make_solved_cube "F" true;
   up ← getitem cube' "U";
   get_row up 2)
  = (left ← getitem make_solved_cube "L"; get_col left 2).
Proof.
  split; [vm_compute; reflexivity|].
  apply (proj2 (proj2 (proj2 front_turn_from_solved)) make_solved_cube).
  vm_compute; reflexivity.
Defined.

(** ** Locality *)

Ltac eval_opposite :=
  match goal with
  | |- context [opposite ?f] =>
      let o := eval vm_compute in (opposite f) in change (opposite f) with o
  end.

(** C6. For every cube state, every face [f] and both directions, a turn of
    [f] leaves the face opposite to [f] unchanged, and changes no sticker
    outside the grid of [f] and the four strips listed for [f]. *)
Theorem rotate_cube_face_locality cube f cw :
  is_cube cube = true -> In f FACE_ORDER ->
  exists cube',
    rotate_cube_face cube f cw = Ok cube' /\
    cube' !! opposite f = cube !! opposite f /\
    forall k r c,
      touched f k r c = false -> sticker cube' k r c = sticker cube k r c.
Proof.
  intros Hc Hf. name_stickers Hc. face_cases Hf; destruct cw.
  all: eexists; split; [turn_step; reflexivity|].
  all: split; [eval_opposite; six_lookups; reflexivity|].
  all: apply (face_or_other (fun k => forall r c, _ -> _ = _));
    [intros k Hk r c Ht; face_cases Hk;
       first
         [ vm_compute in Ht; discriminate Ht
         | unfold sticker; six_lookups;
           destruct r as [|[|[|r]]]; destruct c as [|[|[|c]]];
           first [reflexivity | vm_compute in Ht; discriminate Ht] ]
    |intros k Hk r c _; unfold sticker; by rewrite !six_lookup_other].
Qed.

Lemma rotate_cube_face_locality_solved :
  is_cube make_solved_cube = true /\ In "L" FACE_ORDER /\
  exists cube',
    rotate_cube_face make_solved_cube "L" true = Ok cube' /\
    cube' !! opposite "L" = make_solved_cube !! opposite "L" /\
    forall k r c,
      touched "L" k r c = false ->
      sticker cube' k r c = sticker make_solved_cube k r c.
Proof.
  split; [vm_compute; reflexivity|].
  split; [cbn; tauto|].
  apply (rotate_cube_face_locality make_solved_cube "L" true);
    [vm_compute; reflexivity | cbn; tauto].
Defined.

(** ** Unknown faces *)

Lemma adjacent_strips_unknown f :
  ~ In f FACE_ORDER -> adjacent_strips f = None.
Proof.
  intros Hf. unfold adjacent_strips.
  repeat (case_decide; [exfalso; subst f; apply Hf; cbn; tauto|]).
  reflexivity.
Qed.

(** A name that is not a key of the dictionary: the lookup of line 65
    raises [KeyError] before anything is written. *)
Lemma rotate_cube_face_missing (cube : gmap string (list (list string))) f cw :
  cube !! f = None -> rotate_cube_face cube f cw = Raise (KeyError f).
Proof. intros Hf. unfold rotate_cube_face, getitem. by rewrite Hf. Qed.

(** A key of the dictionary that is none of the six names: the entry is
    rotated, and the final [else] returns. *)
Lemma rotate_cube_face_unknown (cube : gmap string (list (list string)))
    f cw face :
  ~ In f FACE_ORDER -> cube !! f = Some face ->
  rotate_cube_face cube f cw = Ok (<[f := rotate_face_matrix face cw]> cube).
Proof.
  intros Hf Hface. unfold rotate_cube_face, getitem.
  by rewrite Hface, bind_Ok, (adjacent_strips_unknown _ Hf).
Qed.

(** The final [else] is reached on a dictionary with a seventh entry ["X"],
    which is no cube state: there the call returns normally. *)
Lemma unknown_face_returns :
  ~ In "X" FACE_ORDER /\
  rotate_cube_face seven "X" true
  = Ok (<["X" := [["7"; "4"; "1"]; ["8"; "5"; "2"]; ["9"; "6"; "3"]]]> seven).
Proof.
  assert (~ In "X" FACE_ORDER) as HX by (cbn; intuition discriminate).
  split; [exact HX|].
  apply (rotate_cube_face_unknown seven "X" true numbered HX).
  apply lookup_insert_eq.
Qed.

(** C7. On a cube state, a dictionary that holds a 3x3 grid for each of the
    six faces and has no other key, a call with a name that is none of the
    six fails: the lookup of line 65 raises [KeyError] for the name, so that
    nothing is written and the final [else] is not reached; a call with one
    of the six names always succeeds, and gives a cube state with the same
    keys. *)
Theorem rotate_cube_face_outcomes cube name cw :
  is_cube cube = true -> dom cube = list_to_set FACE_ORDER ->
  (~ In name FACE_ORDER ->
   getitem cube name = Raise (KeyError name) /\
   rotate_cube_face cube name cw = Raise (KeyError name)) /\
  (In name FACE_ORDER ->
   exists cube',
     rotate_cube_face cube name cw = Ok cube' /\
     is_cube cube' = true /\ dom cube' = list_to_set FACE_ORDER).
Proof.
  intros Hc Hd. split.
  - intros Hname.
    assert (cube !! name = None) as Hnone.
    { apply not_elem_of_dom. rewrite Hd, elem_of_list_to_set.
      by rewrite list_elem_of_In. }
    split; [unfold getitem; by rewrite Hnone|].
    by apply rotate_cube_face_missing.
  - intros Hname.
    destruct (rotate_cube_face_is_cube cube name cw Hc Hname)
      as (cube' & H & Hc').
    exists cube'. split; [done|]. split; [done|].
    by rewrite (rotate_cube_face_dom _ _ _ _ H).
Qed.

Lemma rotate_cube_face_outcomes_solved :
  is_cube make_solved_cube = true /\
  dom make_solved_cube = list_to_set FACE_ORDER /\
  (~ In "Q" FACE_ORDER /\
   rotate_cube_face make_solved_cube "Q" false = Raise (KeyError "Q")) /\
  exists cube',
    rotate_cube_face make_solved_cube "U" true = Ok cube' /\
    is_cube cube' = true /\ dom cube' = list_to_set FACE_ORDER.
Proof.
  assert (is_cube make_solved_cube = true) as Hc by (vm_compute; reflexivity).
  assert (dom make_solved_cube = list_to_set FACE_ORDER) as Hd.
  { unfold make_solved_cube. cbn [foldl STARTING_COLORS fst snd].
    rewrite !dom_insert_L, dom_empty_L. cbn [list_to_set FACE_ORDER].
    set_solver. }
  assert (~ In "Q" FACE_ORDER) as HQ by (cbn; intuition discriminate).
  split; [exact Hc|]. split; [exact Hd|]. split.
  - split; [exact HQ|].
    apply (proj1 (rotate_cube_face_outcomes make_solved_cube "Q" false Hc Hd)
             HQ).
  - apply (proj2 (rotate_cube_face_outcomes make_solved_cube "U" true Hc Hd)).
    cbn. tauto.
Defined.

(** ** The solved check *)

(** C9. The freshly made cube is solved, and after one clockwise turn of
    any of the six faces it is not. *)
Theorem is_solved_make_solved_cube :
  is_solved make_solved_cube = Ok true /\
  Forall (fun f =>
            (cube ← rotate_cube_face make_solved_cube f true; is_solved cube)
            = Ok false) FACE_ORDER.
Proof.
  split; [vm_compute; reflexivity|].
  repeat constructor; vm_compute; reflexivity.
Qed.

Section ForReturn.
Context {A R : Type} (body : A -> Result (option R)).

Lemma for_return_None xs :
  for_return body xs = Ok None <-> Forall (fun x => body x = Ok None) xs.
Proof.
  induction xs as [|x xs IH]; cbn [for_return].
  - split; [constructor | reflexivity].
  - rewrite Forall_cons, <- IH. destruct (body x) as [[v|]|e]; cbn;
      split; try tauto; try discriminate; intros [H _]; discriminate H.
Qed.

Lemma for_return_Some xs v :
  for_return body xs = Ok (Some v) ->
  Exists (fun x => body x = Ok (Some v)) xs.
Proof.
  induction xs as [|x xs IH]; cbn [for_return]; [discriminate|].
  destruct (body x) as [[w|]|e] eqn:Hx; cbn.
  - intros [= ->]. by left.
  - intros H. right. by apply IH.
  - discriminate.
Qed.
End ForReturn.

Lemma index_Ok {A : Type} (l : list A) i x :
  index l i = Ok x <-> l !! i = Some x.
Proof. unfold index. destruct (l !! i); split; congruence. Qed.

Lemma check_cell_None (cube : gmap string (list (list string))) f col r c :
  check_cell cube f col r c = Ok None <->
  exists face, cube !! f = Some face /\ cell face r c = Some col.
Proof.
  unfold check_cell, cell. split.
  - intros (face & Hf%getitem_Ok & H)%bind_Ok_inv.
    apply bind_Ok_inv in H as (line & Hl%index_Ok & H).
    apply bind_Ok_inv in H as (x & Hx%index_Ok & H).
    case_decide as Hne; [discriminate|]. subst x.
    exists face. split; [done|]. by rewrite Hl.
  - intros (face & Hf%getitem_Ok & H).
    destruct (face !! r) as [line|] eqn:Hl; [|discriminate].
    cbn in H. apply index_Ok in H, Hl.
    rewrite Hf, bind_Ok, Hl, bind_Ok, H, bind_Ok.
    case_decide; [congruence | reflexivity].
Qed.

Lemma check_cell_not_true (cube : gmap string (list (list string))) f col r c :
  check_cell cube f col r c ≠ Ok (Some true).
Proof.
  unfold check_cell, getitem, index.
  destruct (cube !! f) as [face|]; cbn; [|discriminate].
  destruct (face !! r) as [line|]; cbn; [|discriminate].
  destruct (line !! c) as [x|]; cbn; [|discriminate].
  case_decide; discriminate.
Qed.

Lemma check_face_not_true (cube : gmap string (list (list string))) f :
  check_face cube f ≠ Ok (Some true).
Proof.
  unfold check_face. intros H.
  apply bind_Ok_inv in H as (face & _ & H).
  apply bind_Ok_inv in H as (row0 & _ & H).
  apply bind_Ok_inv in H as (col & _ & H).
  apply for_return_Some, Exists_exists in H as (r & _ & H).
  apply for_return_Some, Exists_exists in H as (c & _ & H).
  by apply check_cell_not_true in H.
Qed.

Lemma in_range3 (P : nat -> Prop) :
  (forall r, r ∈ range3 -> P r) <-> (forall r, r < 3 -> P r).
Proof.
  split; intros H r Hr; apply H.
  - destruct r as [|[|[|r]]]; [| | |lia]; unfold range3;
      repeat first [by left | right].
  - unfold range3 in Hr. apply list_elem_of_In in Hr. cbn in Hr.
    destruct Hr as [<-|[<-|[<-|[]]]]; lia.
Qed.

Lemma check_face_None (cube : gmap string (list (list string))) f :
  check_face cube f = Ok None <->
  exists face col,
    cube !! f = Some face /\ cell face 0 0 = Some col /\
    forall r c, r < 3 -> c < 3 -> cell face r c = Some col.
Proof.
  unfold check_face. split.
  - intros (face & Hf%getitem_Ok & H)%bind_Ok_inv.
    apply bind_Ok_inv in H as (row0 & Hr0%index_Ok & H).
    apply bind_Ok_inv in H as (col & Hc0%index_Ok & H).
    exists face, col. split; [done|].
    split; [unfold cell; by rewrite Hr0|].
    rewrite for_return_None, Forall_forall, in_range3 in H.
    intros r c Hr Hc. specialize (H r Hr).
    rewrite for_return_None, Forall_forall, in_range3 in H.
    specialize (H c Hc). apply check_cell_None in H as (face' & Hf' & H).
    congruence.
  - intros (face & col & Hf & H0 & Hall).
    unfold cell in H0.
    destruct (face !! 0) as [row0|] eqn:Hr0; [|discriminate].
    cbn in H0. apply index_Ok in Hr0, H0.
    rewrite (proj2 (getitem_Ok _ _ _) Hf), bind_Ok, Hr0, bind_Ok, H0, bind_Ok.
    rewrite for_return_None, Forall_forall, in_range3. intros r Hr.
    rewrite for_return_None, Forall_forall, in_range3. intros c Hc.
    apply check_cell_None. eauto.
Qed.

(** C8. [is_solved] returns [True] exactly when, on every face of the
    dictionary, the nine cells hold the value of the top-left cell; the
    cube whose six faces are all white, where the six colours are not
    distinct, is reported solved. *)
Theorem is_solved_monochrome :
  (forall cube,
     is_solved cube = Ok true <->
     forall f face,
       cube !! f = Some face ->
       exists col,
         cell face 0 0 = Some col /\
         forall r c, r < 3 -> c < 3 -> cell face r c = Some col) /\
  is_cube all_white = true /\
  sticker all_white "U" 0 0 = sticker all_white "D" 0 0 /\
  is_solved all_white = Ok true.
Proof.
  split; [|repeat split; vm_compute; reflexivity].
  intros cube. unfold is_solved.
  assert (for_return (check_face cube) (map_to_list cube).*1 = Ok None <->
          forall f face, cube !! f = Some face ->
            exists col, cell face 0 0 = Some col /\
              forall r c, r < 3 -> c < 3 -> cell face r c = Some col) as <-.
  { rewrite for_return_None, Forall_forall. split.
    - intros H f face Hface.
      assert (f ∈ (map_to_list cube).*1) as Hf.
      { apply list_elem_of_fmap. exists (f, face). split; [done|].
        by apply elem_of_map_to_list. }
      apply H, check_face_None in Hf as (face' & col & Hf' & H0 & Hall).
      assert (face' = face) as -> by congruence. eauto.
    - intros H f ([f' face] & -> & Hf%elem_of_map_to_list)%list_elem_of_fmap.
      apply check_face_None. cbn.
      destruct (H _ _ Hf) as (col & H0 & Hall). eauto. }
  destruct (for_return (check_face cube) (map_to_list cube).*1)
    as [[[]|]|e] eqn:Hloop; cbn.
  - apply for_return_Some, Exists_exists in Hloop as (f & _ & Hloop).
    by apply check_face_not_true in Hloop.
  - split; discriminate.
  - split; reflexivity.
  - split; discriminate.
Qed.

(** ** Centres *)

Lemma rotate_cube_face_centers cube f cw :
  is_cube cube = true -> In f FACE_ORDER ->
  exists cube',
    rotate_cube_face cube f cw = Ok cube' /\
    is_cube cube' = true /\
    forall k, sticker cube' k 1 1 = sticker cube k 1 1.
Proof.
  intros Hc Hf. name_stickers Hc. face_cases Hf; destruct cw.
  all: eexists; split; [turn_step; reflexivity|].
  all: split; [by apply is_cube_six|].
  all: apply (face_or_other (fun k => _ = _));
    [intros k Hk; face_cases Hk; unfold sticker; six_lookups; reflexivity
    |intros k Hk; unfold sticker; by rewrite !six_lookup_other].
Qed.

Lemma random_choice_In {A : Type} (seq : list A) (draw : nat) :
  seq ≠ [] -> exists x, random_choice seq draw = Ok x /\ In x seq.
Proof.
  intros Hne. unfold random_choice, index.
  destruct (seq !! (draw mod length seq)) as [x|] eqn:Hx.
  - exists x. split; [done|].
    apply list_elem_of_lookup_2 in Hx. by apply list_elem_of_In.
  - apply lookup_ge_None in Hx. destruct seq as [|y seq]; [done|].
    pose proof (Nat.mod_upper_bound draw (length (y :: seq))) as Hlt.
    cbn in Hlt, Hx. lia.
Qed.

Lemma scramble_cube_centers moves :
  forall cube rng,
    is_cube cube = true ->
    exists cube',
      scramble_cube cube moves rng = Ok cube' /\
      is_cube cube' = true /\
      forall k, sticker cube' k 1 1 = sticker cube k 1 1.
Proof.
  induction moves as [|moves IH]; intros cube rng Hc; cbn [scramble_cube].
  - by exists cube.
  - destruct (random_choice_In scramble_faces (rng 0)) as (f & -> & Hf);
      [done|].
    destruct (random_choice_In [true; false] (rng 1)) as (cw & -> & _);
      [done|].
    rewrite !bind_Ok.
    assert (In f FACE_ORDER) as Hf' by (cbn in Hf |- *; tauto).
    destruct (rotate_cube_face_centers cube f cw Hc Hf')
      as (cube1 & -> & Hc1 & Hk1).
    rewrite bind_Ok.
    destruct (IH cube1 (fun i => rng (2 + i)) Hc1) as (cube' & -> & Hc' & Hk').
    exists cube'. split; [done|]. split; [done|].
    intros k. by rewrite Hk', Hk1.
Qed.

Lemma make_solved_cube_centers f color :
  In (f, color) STARTING_COLORS -> sticker make_solved_cube f 1 1 = Some color.
Proof.
  cbn. intros [H|[H|[H|[H|[H|[H|[]]]]]]]; injection H as <- <-;
    vm_compute; reflexivity.
Qed.

(** C10. Every strip has index 0 or 2, and the rotation of a 3x3 grid fixes
    its centre; so for every cube state, every face and both directions, a
    turn leaves the centre cell of every face unchanged, and after any
    scramble of the solved cube each centre holds its starting colour. *)
Theorem centers_never_move :
  (forall f seq,
     adjacent_strips f = Some seq ->
     Forall (fun s => strip_index s = 0 \/ strip_index s = 2) seq) /\
  (forall face cw,
     is_grid face = true ->
     cell (rotate_face_matrix face cw) 1 1 = cell face 1 1) /\
  (forall cube f cw,
     is_cube cube = true -> In f FACE_ORDER ->
     exists cube',
       rotate_cube_face cube f cw = Ok cube' /\
       forall k, sticker cube' k 1 1 = sticker cube k 1 1) /\
  (forall moves rng,
     exists cube',
       scramble_cube make_solved_cube moves rng = Ok cube' /\
       forall f color,
         In (f, color) STARTING_COLORS -> sticker cube' f 1 1 = Some color).
Proof.
  split.
  { intros f seq. unfold adjacent_strips.
    repeat case_decide; intros Hseq; try discriminate Hseq;
      injection Hseq as <-;
      repeat (constructor; [first [by left | by right]|]); constructor. }
  split.
  { intros face cw (? & ? & ? & ? & ? & ? & ? & ? & ? & ->)%is_grid_inv.
    by destruct cw. }
  split.
  { intros cube f cw Hc Hf.
    destruct (rotate_cube_face_centers cube f cw Hc Hf) as (cube' & H & _ & Hk).
    by exists cube'. }
  intros moves rng.
  destruct (scramble_cube_centers moves make_solved_cube rng)
    as (cube' & H & _ & Hk); [vm_compute; reflexivity|].
  exists cube'. split; [done|].
  intros f color Hf. rewrite Hk. by apply make_solved_cube_centers.
Qed.

Lemma centers_never_move_solved :
  is_cube make_solved_cube = true /\ In "U" FACE_ORDER /\
  exists cube',
    rotate_cube_face make_solved_cube "U" false = Ok cube' /\
    forall k, sticker cube' k 1 1 = sticker make_solved_cube k 1 1.
Proof.
  split; [vm_compute; reflexivity|].
  split; [cbn; tauto|].
  apply (proj1 (proj2 (proj2 centers_never_move)) make_solved_cube "U" false);
    [vm_compute; reflexivity | cbn; tauto].
Defined.


(** * Further properties of the code *)

(** ** Rows and columns of a face *)

Lemma store_Ok {A : Type} (l : list A) i x l' :
  store l i x = Ok l' <-> i < length l /\ l' = <[i := x]> l.
Proof.
  unfold store. case_decide; split.
  - intros [= <-]. done.
  - intros [_ ->]. done.
  - discriminate.
  - intros [? _]. lia.
Qed.

Lemma store_Raise {A : Type} (l : list A) i x e :
  store l i x = Raise e <-> length l <= i /\ e = IndexError.
Proof.
  unfold store. case_decide; split.
  - discriminate.
  - intros [? _]. lia.
  - intros [= <-]. split; [lia | done].
  - intros [_ ->]. done.
Qed.

(** X1. [set_row] followed by [get_row] of the same row gives the values
    written; the other rows and the number of rows are unchanged; and
    [set_row] raises [IndexError], writing nothing, exactly when the face has
    no row of that index. *)
Theorem set_row_get_row face idx values :
  (forall face',
     set_row face idx values = Ok face' ->
     get_row face' idx = Ok values /\
     length face' = length face /\
     forall j, j ≠ idx -> get_row face' j = get_row face j) /\
  (set_row face idx values = Raise IndexError <-> length face <= idx) /\
  (idx < length face -> exists face', set_row face idx values = Ok face').
Proof.
  unfold set_row, get_row. split; [|split].
  - intros face' [Hlt ->]%store_Ok. unfold index. split; [|split].
    + by rewrite list_lookup_insert_eq.
    + by rewrite length_insert.
    + intros j Hj. by rewrite list_lookup_insert_ne.
  - rewrite store_Raise. intuition.
  - intros Hlt. eexists. apply store_Ok. eauto.
Qed.

Lemma set_row_get_row_example :
  set_row [["a"; "b"]; ["c"; "d"]] 1 ["x"; "y"] = Ok [["a"; "b"]; ["x"; "y"]] /\
  get_row [["a"; "b"]; ["x"; "y"]] 1 = Ok ["x"; "y"].
Proof.
  split; [reflexivity|].
  apply (proj1 (set_row_get_row [["a"; "b"]; ["c"; "d"]] 1 ["x"; "y"])
           [["a"; "b"]; ["x"; "y"]]).
  reflexivity.
Defined.

(** What a successful [set_col] has read and written. *)
Lemma set_col_Ok face idx values face' :
  set_col face idx values = Ok face' ->
  exists r0 r1 r2 rest v0 v1 v2 vs,
    face = r0 :: r1 :: r2 :: rest /\
    values = v0 :: v1 :: v2 :: vs /\
    idx < length r0 /\ idx < length r1 /\ idx < length r2 /\
    face' = <[idx := v0]> r0 :: <[idx := v1]> r1 :: <[idx := v2]> r2 :: rest.
Proof.
  unfold set_col, range3. cbn [for_each].
  intros (f1 & H0 & (f2 & H1 & (f3 & H2 & [= <-])%bind_Ok_inv)%bind_Ok_inv)
    %bind_Ok_inv.
  apply bind_Ok_inv in H0 as (v0 & Hv0%index_Ok & H0).
  apply bind_Ok_inv in H0 as (r0 & Hr0%index_Ok & H0).
  apply bind_Ok_inv in H0 as (r0' & [Hi0 ->]%store_Ok & [_ ->]%store_Ok).
  apply bind_Ok_inv in H1 as (v1 & Hv1%index_Ok & H1).
  apply bind_Ok_inv in H1 as (r1 & Hr1%index_Ok & H1).
  apply bind_Ok_inv in H1 as (r1' & [Hi1 ->]%store_Ok & [_ ->]%store_Ok).
  apply bind_Ok_inv in H2 as (v2 & Hv2%index_Ok & H2).
  apply bind_Ok_inv in H2 as (r2 & Hr2%index_Ok & H2).
  apply bind_Ok_inv in H2 as (r2' & [Hi2 ->]%store_Ok & [_ ->]%store_Ok).
  destruct values as [|w0 [|w1 [|w2 vs]]]; try discriminate.
  destruct face as [|q0 [|q1 [|q2 rest]]]; try discriminate.
  cbn in *. simplify_eq.
  by exists r0, r1, r2, rest, v0, v1, v2, vs.
Qed.

(** X2. After a successful [set_col], [get_col] of the same column gives the
    first three values written. *)
Theorem set_col_get_col face idx values face' :
  set_col face idx values = Ok face' ->
  get_col face' idx = Ok (take 3 values).
Proof.
  intros (r0 & r1 & r2 & rest & v0 & v1 & v2 & vs & -> & -> & H0 & H1 & H2 & ->)
    %set_col_Ok.
  unfold get_col, range3, index. cbn.
  by rewrite !list_lookup_insert_eq.
Qed.

Lemma set_col_get_col_example :
  set_col [["a"; "b"]; ["c"; "d"]; ["e"; "f"]] 1 ["x"; "y"; "z"; "w"]
  = Ok [["a"; "x"]; ["c"; "y"]; ["e"; "z"]] /\
  get_col [["a"; "x"]; ["c"; "y"]; ["e"; "z"]] 1 = Ok ["x"; "y"; "z"].
Proof.
  split; [reflexivity|].
  apply (set_col_get_col [["a"; "b"]; ["c"; "d"]; ["e"; "f"]] 1
           ["x"; "y"; "z"; "w"]).
  reflexivity.
Defined.

(** X3. A successful [set_col] writes the three cells of the column and
    nothing else: every other cell keeps its value, and the face keeps its
    rows and their lengths. *)
Theorem set_col_cells face idx values face' :
  set_col face idx values = Ok face' ->
  (forall r c,
     cell face' r c
     = if decide (r < 3 /\ c = idx) then values !! r else cell face r c) /\
  length <$> face' = length <$> face.
Proof.
  intros (r0 & r1 & r2 & rest & v0 & v1 & v2 & vs & -> & -> & H0 & H1 & H2 & ->)
    %set_col_Ok.
  split.
  - intros r c. unfold cell.
    destruct r as [|[|[|r]]]; cbn; case_decide as Hd;
      try (destruct Hd as [_ ->]; by rewrite list_lookup_insert_eq);
      try (destruct Hd; lia);
      try reflexivity.
    all: apply list_lookup_insert_ne; intros <-; apply Hd; split; [lia|done].
  - cbn. by rewrite !length_insert.
Qed.

Lemma set_col_cells_example :
  set_col [["a"; "b"]; ["c"; "d"]; ["e"; "f"]] 0 ["x"; "y"; "z"]
  = Ok [["x"; "b"]; ["y"; "d"]; ["z"; "f"]] /\
  cell [["x"; "b"]; ["y"; "d"]; ["z"; "f"]] 1 1 = Some "d".
Proof.
  split; [reflexivity|].
  pose proof (proj1 (set_col_cells [["a"; "b"]; ["c"; "d"]; ["e"; "f"]] 0
    ["x"; "y"; "z"] [["x"; "b"]; ["y"; "d"]; ["z"; "f"]] eq_refl) 1 1) as H.
  exact H.
Defined.

Lemma index_cell (face : list (list string)) r idx :
  (line ← index face r; index line idx)
  = match cell face r idx with
    | Some x => Ok x
    | None => Raise IndexError
    end.
Proof.
  unfold index, cell. destruct (face !! r) as [line|]; cbn; [|done].
  by destruct (line !! idx).
Qed.

(** X4. [get_col] returns the three cells of the column, top to bottom, and
    raises [IndexError], and nothing else, exactly when one of them is
    missing. *)
Theorem get_col_cells face idx :
  (forall p,
     get_col face idx = Ok p <->
     exists x0 x1 x2,
       p = [x0; x1; x2] /\ cell face 0 idx = Some x0 /\
       cell face 1 idx = Some x1 /\ cell face 2 idx = Some x2) /\
  (forall e,
     get_col face idx = Raise e <->
     e = IndexError /\ exists r, r < 3 /\ cell face r idx = None).
Proof.
  unfold get_col, range3. cbn [comprehension]. rewrite !index_cell.
  destruct (cell face 0 idx) as [x0|] eqn:E0;
    destruct (cell face 1 idx) as [x1|] eqn:E1;
    destruct (cell face 2 idx) as [x2|] eqn:E2; cbn.
  all: split; [intros p; split; [intros H | intros (? & ? & ? & ? & ? & ? & ?)]
              |intros e; split; [intros H | intros [-> (r & Hr & H)]]].
  all: try discriminate; try done.
  all: try (injection H as <-; by eauto 10).
  all: try congruence.
  all: try (injection H as <-; split; [done|]).
  all: try (destruct r as [|[|[|r]]]; [| | |lia]; congruence).
  all: first [ by (exists 0; split; [lia|done])
             | by (exists 1; split; [lia|done])
             | by (exists 2; split; [lia|done]) ].
Qed.

(** ** The two branches of [rotate_face_matrix] *)

(** X5. On a 3x3 grid both branches of [rotate_face_matrix] give a 3x3 grid
    with the same stickers; the clockwise branch sends the sticker at
    [(r, c)] to [(c, 2 - r)], the other branch sends it to
    [(2 - c, 2 - r)]. *)
Theorem rotate_face_matrix_cells face :
  is_grid face = true ->
  (forall cw,
     is_grid (rotate_face_matrix face cw) = true /\
     concat (rotate_face_matrix face cw) ≡ₚ concat face) /\
  (forall r c, r < 3 -> c < 3 ->
     cell (rotate_face_matrix face true) c (2 - r) = cell face r c /\
     cell (rotate_face_matrix face false) (2 - c) (2 - r) = cell face r c).
Proof.
  intros Hg. split.
  - destruct (is_grid_inv _ Hg) as (? & ? & ? & ? & ? & ? & ? & ? & ? & ->).
    intros [|]; (split; [reflexivity|]); cbn; permutation_by_heads.
  - intros r c Hr Hc. split.
    + by apply rotate_face_matrix_clockwise.
    + by apply rotate_face_matrix_other_branch.
Qed.

Lemma rotate_face_matrix_cells_numbered :
  is_grid numbered = true /\
  cell (rotate_face_matrix numbered true) 2 2 = cell numbered 0 2 /\
  cell (rotate_face_matrix numbered false) 0 2 = cell numbered 0 2.
Proof.
  split; [reflexivity|].
  apply (proj2 (rotate_face_matrix_cells numbered eq_refl) 0 2); lia.
Defined.

(** X6. On a 3x3 grid four applications of the clockwise branch give the
    grid back, and so do two applications of the other branch; the clockwise
    branch followed by the other one reverses every row, and the other branch
    followed by the clockwise one reverses the order of the rows. *)
Theorem rotate_face_matrix_orders face :
  is_grid face = true ->
  rotate_face_matrix (rotate_face_matrix (rotate_face_matrix
    (rotate_face_matrix face true) true) true) true = face /\
  rotate_face_matrix (rotate_face_matrix face false) false = face /\
  rotate_face_matrix (rotate_face_matrix face true) false
  = map (@rev string) face /\
  rotate_face_matrix (rotate_face_matrix face false) true = rev face.
Proof.
  by intros (? & ? & ? & ? & ? & ? & ? & ? & ? & ->)%is_grid_inv.
Qed.

Lemma rotate_face_matrix_orders_numbered :
  is_grid numbered = true /\
  rotate_face_matrix (rotate_face_matrix (rotate_face_matrix
    (rotate_face_matrix numbered true) true) true) true = numbered /\
  rotate_face_matrix (rotate_face_matrix numbered false) false = numbered /\
  rotate_face_matrix (rotate_face_matrix numbered true) false
  = map (@rev string) numbered /\
  rotate_face_matrix (rotate_face_matrix numbered false) true = rev numbered.
Proof.
  split; [reflexivity|].
  apply (rotate_face_matrix_orders numbered). reflexivity.
Defined.

(** ** Turns on any dictionary *)

(** X7. On any dictionary, a call of [rotate_cube_face] that returns keeps
    the set of keys, and leaves every entry unchanged other than the one of
    the turned face and those of the faces of its strips. *)
Theorem rotate_cube_face_keys (cube : gmap string (list (list string)))
    f cw cube' :
  rotate_cube_face cube f cw = Ok cube' ->
  dom cube' = dom cube /\
  forall k,
    k ≠ f ->
    Forall (fun s => strip_face s ≠ k) (default [] (adjacent_strips f)) ->
    cube' !! k = cube !! k.
Proof.
  intros H. split; [by apply (rotate_cube_face_dom _ _ _ _ H)|].
  intros k Hk Hs. apply (rotate_cube_face_other _ _ _ _ _ H); [congruence|done].
Qed.

Lemma rotate_cube_face_keys_seven :
  exists cube',
    rotate_cube_face seven "X" true = Ok cube' /\
    dom cube' = dom seven /\
    cube' !! "U" = seven !! "U".
Proof.
  destruct (rotate_cube_face seven "X" true) as [cube'|e] eqn:H.
  - exists cube'. split; [reflexivity|].
    destruct (rotate_cube_face_keys seven "X" true cube' H) as [Hd Hk].
    split; [exact Hd|]. apply Hk; [done|]. constructor.
  - exfalso. revert H. unfold rotate_cube_face, seven.
    unfold getitem. rewrite lookup_insert_eq. cbn. discriminate.
Defined.

(** ** Repeated and combined turns of a cube state *)

Lemma repeat_turn_add n m cube f cw :
  repeat_turn (n + m) cube f cw
  = (cube' ← repeat_turn n cube f cw; repeat_turn m cube' f cw).
Proof.
  revert cube. induction n as [|n IH]; intros cube; cbn [repeat_turn Nat.add].
  - reflexivity.
  - destruct (rotate_cube_face cube f cw) as [cube1|e]; cbn; [apply IH|done].
Qed.

Lemma repeat_turn_four cube f cw :
  is_cube cube = true -> In f FACE_ORDER -> repeat_turn 4 cube f cw = Ok cube.
Proof.
  intros Hc Hf. name_stickers Hc. cbn [repeat_turn]. face_cases Hf; destruct cw.
  all: do 4 turn_step.
  all: reflexivity.
Qed.

(** X8. For every cube state, each of the six faces and both directions,
    any multiple of four turns of the face in the same direction gives the
    state back: also with [clockwise = False]. *)
Theorem repeat_turn_period cube f cw n :
  is_cube cube = true -> In f FACE_ORDER ->
  repeat_turn (4 * n) cube f cw = Ok cube.
Proof.
  intros Hc Hf. induction n as [|n IH]; [reflexivity|].
  replace (4 * S n) with (4 + 4 * n) by lia.
  by rewrite repeat_turn_add, repeat_turn_four, bind_Ok.
Qed.

Lemma repeat_turn_period_solved :
  is_cube make_solved_cube = true /\ In "L" FACE_ORDER /\
  repeat_turn (4 * 2) make_solved_cube "L" false = Ok make_solved_cube.
Proof.
  split; [vm_compute; reflexivity|].
  split; [cbn; tauto|].
  apply (repeat_turn_period make_solved_cube "L" false 2);
    [vm_compute; reflexivity | cbn; tauto].
Defined.

(** X9. Turns of opposite faces commute: for every cube state, each of the
    six faces and all directions, turning the face and then the opposite one
    succeeds and gives the state that the two turns give in the other
    order. *)
Theorem opposite_turns_commute cube f cw1 cw2 :
  is_cube cube = true -> In f FACE_ORDER ->
  exists cube',
    (cube1 ← rotate_cube_face cube f cw1;
     rotate_cube_face cube1 (opposite f) cw2) = Ok cube' /\
    (cube2 ← rotate_cube_face cube (opposite f) cw2;
     rotate_cube_face cube2 f cw1) = Ok cube'.
Proof.
  intros Hc Hf. name_stickers Hc. face_cases Hf; eval_opposite;
    destruct cw1, cw2.
  all: eexists; split; [do 2 turn_step; reflexivity|].
  all: do 2 turn_step; reflexivity.
Qed.

Lemma opposite_turns_commute_solved :
  is_cube make_solved_cube = true /\ In "U" FACE_ORDER /\
  exists cube',
    (cube1 ← rotate_cube_face make_solved_cube "U" true;
     rotate_cube_face cube1 (opposite "U") false) = Ok cube' /\
    (cube2 ← rotate_cube_face make_solved_cube (opposite "U") false;
     rotate_cube_face cube2 "U" true) = Ok cube'.
Proof.
  split; [vm_compute; reflexivity|].
  split; [cbn; tauto|].
  apply (opposite_turns_commute make_solved_cube "U" true false);
    [vm_compute; reflexivity | cbn; tauto].
Defined.

(** X10. For every cube state and each of the six faces, a turn and the
    turn the other way restore every face other than the turned one, in
    either order; the turned face comes back with every row reversed after
    clockwise then [clockwise = False], and with its rows in reverse order
    after [clockwise = False] then clockwise. *)
Theorem turn_and_back_orders cube f :
  is_cube cube = true -> In f FACE_ORDER ->
  exists face cube1 cube2,
    cube !! f = Some face /\
    (cube' ← rotate_cube_face cube f true; rotate_cube_face cube' f false)
    = Ok cube1 /\
    (cube' ← rotate_cube_face cube f false; rotate_cube_face cube' f true)
    = Ok cube2 /\
    cube1 !! f = Some (map (@rev string) face) /\
    cube2 !! f = Some (rev face) /\
    forall k, k ≠ f -> cube1 !! k = cube !! k /\ cube2 !! k = cube !! k.
Proof.
  intros Hc Hf. name_stickers Hc. face_cases Hf.
  all: eexists; eexists; eexists; split; [by six_lookups|].
  all: split; [do 2 turn_step; reflexivity|].
  all: split; [do 2 turn_step; reflexivity|].
  all: split; [by six_lookups|].
  all: split; [by six_lookups|].
  all: apply (face_or_other (fun k => _ -> _ !! k = _ !! k /\ _ !! k = _ !! k));
    [intros k Hk Hne; face_cases Hk;
       first [exfalso; apply Hne; reflexivity
             | split; six_lookups; reflexivity]
    |intros k Hk _; by rewrite !six_lookup_other].
Qed.

Lemma turn_and_back_orders_solved :
  is_cube make_solved_cube = true /\ In "R" FACE_ORDER /\
  exists face cube1 cube2,
    make_solved_cube !! "R" = Some face /\
    (cube' ← rotate_cube_face make_solved_cube "R" true;
     rotate_cube_face cube' "R" false) = Ok cube1 /\
    (cube' ← rotate_cube_face make_solved_cube "R" false;
     rotate_cube_face cube' "R" true) = Ok cube2 /\
    cube1 !! "R" = Some (map (@rev string) face) /\
    cube2 !! "R" = Some (rev face) /\
    forall k, k ≠ "R" ->
      cube1 !! k = make_solved_cube !! k /\ cube2 !! k = make_solved_cube !! k.
Proof.
  split; [vm_compute; reflexivity|].
  split; [cbn; tauto|].
  apply (turn_and_back_orders make_solved_cube "R");
    [vm_compute; reflexivity | cbn; tauto].
Defined.

(** ** Scrambles *)

(** A turn of one of the six faces of a cube state: the state it gives. *)
Lemma rotate_cube_face_state cube f cw :
  is_cube cube = true -> In f FACE_ORDER ->
  exists cube',
    rotate_cube_face cube f cw = Ok cube' /\
    is_cube cube' = true /\
    stickers cube' ≡ₚ stickers cube.
Proof.
  intros Hc Hf. name_stickers Hc. face_cases Hf; destruct cw.
  all: eexists; split; [turn_step; reflexivity|].
  all: split; [by apply is_cube_six|].
  all: rewrite !stickers_six; cbn [concat app]; permutation_by_heads.
Qed.

(** X11. From every cube state, a scramble of any number of moves, with any
    draws of the random generator, succeeds and gives a cube state with the
    same keys and the same stickers up to their order. *)
Theorem scramble_cube_state moves cube rng :
  is_cube cube = true ->
  exists cube',
    scramble_cube cube moves rng = Ok cube' /\
    is_cube cube' = true /\
    dom cube' = dom cube /\
    stickers cube' ≡ₚ stickers cube.
Proof.
  revert cube rng.
  induction moves as [|moves IH]; intros cube rng Hc; cbn [scramble_cube].
  - by exists cube.
  - destruct (random_choice_In scramble_faces (rng 0)) as (f & -> & Hf);
      [done|].
    destruct (random_choice_In [true; false] (rng 1)) as (cw & -> & _);
      [done|].
    rewrite !bind_Ok.
    assert (In f FACE_ORDER) as Hf' by (cbn in Hf |- *; tauto).
    destruct (rotate_cube_face_state cube f cw Hc Hf')
      as (cube1 & H1 & Hc1 & Hp1).
    rewrite H1, bind_Ok.
    destruct (IH cube1 (fun i => rng (2 + i)) Hc1)
      as (cube' & -> & Hc' & Hd' & Hp').
    exists cube'. split; [done|]. split; [done|]. split.
    + rewrite Hd'. by apply (rotate_cube_face_dom _ _ _ _ H1).
    + by rewrite Hp', Hp1.
Qed.

Lemma scramble_cube_state_solved :
  is_cube make_solved_cube = true /\
  exists cube',
    scramble_cube make_solved_cube 25 (fun i => 3 * i + 1) = Ok cube' /\
    is_cube cube' = true /\
    dom cube' = dom make_solved_cube /\
    stickers cube' ≡ₚ stickers make_solved_cube.
Proof.
  split; [vm_compute; reflexivity|].
  apply (scramble_cube_state 25 make_solved_cube (fun i => 3 * i + 1)).
  vm_compute; reflexivity.
Defined.


(** ** The outcomes of the solved check *)

Lemma bind_Raise {A B : Type} (e : PyError) (k : A -> Result B) :
  (Raise e ≫= k) = Raise e.
Proof. reflexivity. Qed.

Lemma range3_lt r : r ∈ range3 -> r < 3.
Proof. revert r. by apply in_range3. Qed.

Section ForReturnRaise.
Context {A R : Type} (body : A -> Result (option R)).

Lemma for_return_Raise xs e :
  for_return body xs = Raise e -> Exists (fun x => body x = Raise e) xs.
Proof.
  induction xs as [|x xs IH]; cbn [for_return]; [discriminate|].
  destruct (body x) as [[w|]|e'] eqn:Hx; cbn.
  - discriminate.
  - intros H. right. by apply IH.
  - intros [= ->]. by left.
Qed.
End ForReturnRaise.

Lemma check_cell_Raise (cube : gmap string (list (list string))) f face col r c e :
  cube !! f = Some face -> check_cell cube f col r c = Raise e ->
  e = IndexError /\ cell face r c = None.
Proof.
  intros Hf. unfold check_cell, getitem, index, cell. rewrite Hf. cbn.
  destruct (face !! r) as [line|]; cbn; [|by intros [= <-]].
  destruct (line !! c) as [x|]; cbn; [|by intros [= <-]].
  case_decide; discriminate.
Qed.

Lemma is_grid_cell face r c :
  is_grid face = true -> r < 3 -> c < 3 -> is_Some (cell face r c).
Proof.
  intros (? & ? & ? & ? & ? & ? & ? & ? & ? & ->)%is_grid_inv Hr Hc.
  destruct r as [|[|[|r]]]; [| | |lia];
    (destruct c as [|[|[|c]]]; [| | |lia]); cbn; eauto.
Qed.

Lemma check_face_Raise (cube : gmap string (list (list string))) f face e :
  cube !! f = Some face -> check_face cube f = Raise e ->
  e = IndexError /\ is_grid face = false.
Proof.
  intros Hf. unfold check_face, getitem. rewrite Hf, bind_Ok.
  destruct (is_grid face) eqn:Hg.
  - intros H. exfalso.
    destruct (is_grid_cell face 0 0 Hg) as [col Hcol]; [lia..|].
    unfold cell in Hcol.
    destruct (face !! 0) as [row0|] eqn:Hr0; [|discriminate Hcol].
    cbn in Hcol.
    rewrite (proj2 (index_Ok _ _ _) Hr0), bind_Ok,
      (proj2 (index_Ok _ _ _) Hcol), bind_Ok in H.
    apply for_return_Raise, Exists_exists in H as (r & Hr & H).
    apply for_return_Raise, Exists_exists in H as (c & Hc & H).
    apply (check_cell_Raise _ _ _ _ _ _ _ Hf) in H as [_ H].
    apply range3_lt in Hr, Hc.
    destruct (is_grid_cell face r c Hg Hr Hc) as [x Hx]. congruence.
  - intros H. split; [|done].
    unfold index in H.
    destruct (face !! 0) as [row0|];
      [rewrite bind_Ok in H | rewrite bind_Raise in H; by injection H as <-].
    destruct (row0 !! 0) as [col|];
      [rewrite bind_Ok in H | rewrite bind_Raise in H; by injection H as <-].
    apply for_return_Raise, Exists_exists in H as (r & Hr & H).
    apply for_return_Raise, Exists_exists in H as (c & Hc & H).
    by apply (check_cell_Raise _ _ _ _ _ _ _ Hf) in H as [-> _].
Qed.

Lemma is_solved_Raise (cube : gmap string (list (list string))) e :
  is_solved cube = Raise e ->
  e = IndexError /\ exists f face, cube !! f = Some face /\ is_grid face = false.
Proof.
  unfold is_solved.
  destruct (for_return (check_face cube) (map_to_list cube).*1) as [o|e']
    eqn:Hloop; cbn; [discriminate|]. intros [= ->].
  apply for_return_Raise, Exists_exists in Hloop as (f & Hf & H).
  apply list_elem_of_fmap in Hf as ([f' face] & -> & Hf%elem_of_map_to_list).
  cbn in H. destruct (check_face_Raise _ _ _ _ Hf H) as [-> Hg]. eauto.
Qed.

(** X13. [is_solved] raises nothing but [IndexError], and only on a
    dictionary with an entry that is not a 3x3 grid; when it returns [False]
    some cell of some entry differs from the top-left cell of its grid; on
    the empty dictionary it returns [True]. *)
Theorem is_solved_outcomes :
  (forall cube e,
     is_solved cube = Raise e ->
     e = IndexError /\
     exists f face, cube !! f = Some face /\ is_grid face = false) /\
  (forall cube,
     is_solved cube = Ok false ->
     exists f face r c x col,
       cube !! f = Some face /\ cell face 0 0 = Some col /\
       r < 3 /\ c < 3 /\ cell face r c = Some x /\ x ≠ col) /\
  is_solved ∅ = Ok true.
Proof.
  split; [exact is_solved_Raise|]. split; [|reflexivity].
  intros cube. unfold is_solved.
  destruct (for_return (check_face cube) (map_to_list cube).*1) as [[[]|]|e']
    eqn:Hloop; cbn; try discriminate. intros _.
  apply for_return_Some, Exists_exists in Hloop as (f & _ & H).
  unfold check_face in H.
  apply bind_Ok_inv in H as (face & Hf%getitem_Ok & H).
  apply bind_Ok_inv in H as (row0 & Hr0%index_Ok & H).
  apply bind_Ok_inv in H as (col & Hc0%index_Ok & H).
  apply for_return_Some, Exists_exists in H as (r & Hr & H).
  apply for_return_Some, Exists_exists in H as (c & Hc & H).
  unfold check_cell in H.
  apply bind_Ok_inv in H as (face' & Hf'%getitem_Ok & H).
  apply bind_Ok_inv in H as (line & Hl%index_Ok & H).
  apply bind_Ok_inv in H as (x & Hx%index_Ok & H).
  case_decide as Hne; [|discriminate].
  assert (face' = face) as -> by congruence.
  exists f, face, r, c, x, col. split; [done|].
  split; [unfold cell; by rewrite Hr0|].
  split; [by apply range3_lt|].
  split; [by apply range3_lt|].
  split; [unfold cell; by rewrite Hl|done].
Qed.

(** ** The solved cube *)

Lemma make_solved_cube_None k :
  ~ In k FACE_ORDER -> make_solved_cube !! k = None.
Proof.
  intros Hk. unfold make_solved_cube. cbn [foldl STARTING_COLORS fst snd].
  rewrite !lookup_insert_ne, ?lookup_empty; [done|..];
    intros <-; apply Hk; cbn; tauto.
Qed.

Lemma make_solved_cube_dom : dom make_solved_cube = list_to_set FACE_ORDER.
Proof.
  unfold make_solved_cube. cbn [foldl STARTING_COLORS fst snd].
  rewrite !dom_insert_L, dom_empty_L. cbn [list_to_set FACE_ORDER]. set_solver.
Qed.

Lemma make_solved_cube_playable : playable make_solved_cube.
Proof.
  split; [vm_compute; reflexivity|].
  split; [apply make_solved_cube_dom|].
  split; [reflexivity|].
  apply make_solved_cube_centers.
Qed.

(** X14. [make_solved_cube] returns a dictionary whose keys are the six
    faces, each bound to a 3x3 grid filled with the starting colour of the
    face. *)
Theorem make_solved_cube_faces :
  dom make_solved_cube = list_to_set FACE_ORDER /\
  forall f color,
    In (f, color) STARTING_COLORS ->
    make_solved_cube !! f = Some (replicate 3 (replicate 3 color)).
Proof.
  split; [apply make_solved_cube_dom|].
  cbn. intros f color [H|[H|[H|[H|[H|[H|[]]]]]]]; injection H as <- <-;
    vm_compute; reflexivity.
Qed.

(** ** The drawing of the net *)

Lemma COLOR_MAP_X : getitem COLOR_MAP "X" = Ok (30, 30, 30)%Z.
Proof. reflexivity. Qed.

Lemma c_int_exact v : (- 2147483648 <= v < 2147483648)%Z -> c_int v = v.
Proof. intros Hv. unfold c_int. rewrite Z.mod_small; lia. Qed.

(** [pygame.Rect] on coordinates that fit a C [int] and on coordinates that
    do not fit a C [long]. *)
Lemma pygame_Rect_exact x y w h :
  (- 2147483648 <= x < 2147483648)%Z -> (- 2147483648 <= y < 2147483648)%Z ->
  (- 2147483648 <= w < 2147483648)%Z -> (- 2147483648 <= h < 2147483648)%Z ->
  pygame_Rect (x, y, w, h) = Ok (x, y, w, h).
Proof.
  intros Hx Hy Hw Hh. unfold pygame_Rect, in_c_long. cbn [forallb].
  replace ((- 9223372036854775808 <=? x) && (x <? 9223372036854775808))%Z
    with true by (symmetry; apply andb_true_intro; lia).
  replace ((- 9223372036854775808 <=? y) && (y <? 9223372036854775808))%Z
    with true by (symmetry; apply andb_true_intro; lia).
  replace ((- 9223372036854775808 <=? w) && (w <? 9223372036854775808))%Z
    with true by (symmetry; apply andb_true_intro; lia).
  replace ((- 9223372036854775808 <=? h) && (h <? 9223372036854775808))%Z
    with true by (symmetry; apply andb_true_intro; lia).
  cbn [andb].
  by rewrite (c_int_exact x), (c_int_exact y), (c_int_exact w), (c_int_exact h).
Qed.

Lemma pygame_Rect_Raise x y w h e :
  pygame_Rect (x, y, w, h) = Raise e ->
  e = TypeError /\
  ~ ((- 9223372036854775808 <= x < 9223372036854775808)%Z /\
     (- 9223372036854775808 <= y < 9223372036854775808)%Z /\
     (- 9223372036854775808 <= w < 9223372036854775808)%Z /\
     (- 9223372036854775808 <= h < 9223372036854775808)%Z).
Proof.
  unfold pygame_Rect.
  destruct (forallb in_c_long [x; y; w; h]) eqn:H; [discriminate|].
  intros [= <-]. split; [done|]. intros (Hx & Hy & Hw & Hh).
  revert H. unfold in_c_long. cbn [forallb].
  replace ((- 9223372036854775808 <=? x) && (x <? 9223372036854775808))%Z
    with true by (symmetry; apply andb_true_intro; lia).
  replace ((- 9223372036854775808 <=? y) && (y <? 9223372036854775808))%Z
    with true by (symmetry; apply andb_true_intro; lia).
  replace ((- 9223372036854775808 <=? w) && (w <? 9223372036854775808))%Z
    with true by (symmetry; apply andb_true_intro; lia).
  replace ((- 9223372036854775808 <=? h) && (h <? 9223372036854775808))%Z
    with true by (symmetry; apply andb_true_intro; lia).
  discriminate.
Qed.

Lemma NET_POS_faces face pos : In (face, pos) NET_POS -> In face FACE_ORDER.
Proof.
  cbn [In NET_POS].
  intros [H|[H|[H|[H|[H|[H|[]]]]]]]; injection H as <- <-; cbn; tauto.
Qed.

Lemma NET_POS_range face pos :
  In (face, pos) NET_POS -> (0 <= pos.1 <= 2 /\ 0 <= pos.2 <= 3)%Z.
Proof.
  cbn [In NET_POS].
  intros [H|[H|[H|[H|[H|[H|[]]]]]]]; injection H as <- <-; cbn; lia.
Qed.

Lemma pygame_Rect_cell top_left pos r c :
  net_within 2147483648 top_left ->
  (0 <= pos.1 <= 2 /\ 0 <= pos.2 <= 3)%Z -> r < 3 -> c < 3 ->
  pygame_Rect (cell_rect top_left pos r c) = Ok (cell_rect top_left pos r c).
Proof.
  destruct top_left as [tx ty], pos as [nr nc].
  unfold net_within, cell_rect, face_corner, CELL, PADDING. cbn [fst snd].
  intros Hfit Hpos Hr Hc. apply pygame_Rect_exact; lia.
Qed.

Lemma pygame_Rect_border top_left pos :
  net_within 2147483648 top_left ->
  (0 <= pos.1 <= 2 /\ 0 <= pos.2 <= 3)%Z ->
  pygame_Rect (border_rect top_left pos) = Ok (border_rect top_left pos).
Proof.
  destruct top_left as [tx ty], pos as [nr nc].
  unfold net_within, border_rect, face_corner, CELL, PADDING. cbn [fst snd].
  intros Hfit Hpos. apply pygame_Rect_exact; lia.
Qed.

Lemma draw_cell_Ok cube top_left face pos r c color_char :
  net_within 2147483648 top_left ->
  (0 <= pos.1 <= 2 /\ 0 <= pos.2 <= 3)%Z -> r < 3 -> c < 3 ->
  sticker cube face r c = Some color_char ->
  draw_cell cube top_left face pos r c
  = Ok (DrawRect (default (30, 30, 30)%Z (COLOR_MAP !! color_char))
          (cell_rect top_left pos r c) 0).
Proof.
  unfold sticker, cell. intros Hfit Hpos Hr Hc H.
  destruct (cube !! face) as [grid|] eqn:Hf; [|discriminate H].
  change ((line ← grid !! r; line !! c) = Some color_char) in H.
  destruct (grid !! r) as [line|] eqn:Hl; [|discriminate H].
  change (line !! c = Some color_char) in H.
  unfold draw_cell.
  rewrite (proj2 (getitem_Ok _ _ _) Hf), bind_Ok.
  rewrite (proj2 (index_Ok _ _ _) Hl), bind_Ok.
  rewrite (proj2 (index_Ok _ _ _) H), bind_Ok.
  rewrite COLOR_MAP_X, bind_Ok.
  by rewrite (pygame_Rect_cell _ _ _ _ Hfit Hpos Hr Hc), bind_Ok.
Qed.

(** Find an element in an explicit list. *)
Ltac in_explicit_list :=
  repeat lazymatch goal with
  | |- ?a = ?b \/ _ => first [constr_eq a b; left; reflexivity | right]
  end.

(** X15. On every cube state, and for every [top_left] for which the
    coordinates of the net fit a C [int], [draw_cube_net] succeeds and draws
    60 rectangles: for each face of the net the nine stickers, each filled
    with the colour of [COLOR_MAP] for its letter, or with the colour of
    ['X'] for a letter that [COLOR_MAP] does not have, at its cell of the
    net, and the border of the face. *)
Theorem draw_cube_net_cells cube top_left :
  is_cube cube = true ->
  net_within 2147483648 top_left ->
  exists screen,
    draw_cube_net cube top_left = Ok screen /\
    length screen = 60 /\
    (forall face pos r c color_char,
       In (face, pos) NET_POS -> r < 3 -> c < 3 ->
       sticker cube face r c = Some color_char ->
       In (DrawRect (default (30, 30, 30)%Z (COLOR_MAP !! color_char))
             (cell_rect top_left pos r c) 0) screen) /\
    (forall face pos,
       In (face, pos) NET_POS ->
       In (DrawRect (20, 20, 20)%Z (border_rect top_left pos) 2) screen).
Proof.
  intros Hc Hfit. name_stickers Hc. unfold draw_cube_net.
  cbn [for_each NET_POS range3].
  repeat erewrite draw_cell_Ok
    by first [ exact Hfit | lia | cbn; lia
             | unfold sticker; six_lookups; reflexivity ].
  repeat rewrite pygame_Rect_border by first [exact Hfit | cbn; lia].
  cbn [mbind Result_bind app].
  eexists. split; [reflexivity|]. split; [reflexivity|]. split.
  - intros face pos r c color_char Hin Hr Hcol Hs.
    cbn [In NET_POS] in Hin.
    destruct Hin as [H|[H|[H|[H|[H|[H|[]]]]]]]; injection H as <- <-.
    all: destruct r as [|[|[|r]]]; [| | |lia].
    all: destruct c as [|[|[|c]]]; [| | |lia].
    all: unfold sticker in Hs; revert Hs; six_lookups; intros [= <-].
    all: cbn [app In]; in_explicit_list.
  - intros face pos Hin. cbn [In NET_POS] in Hin.
    destruct Hin as [H|[H|[H|[H|[H|[H|[]]]]]]]; injection H as <- <-.
    all: cbn [app In]; in_explicit_list.
Qed.

Lemma draw_cube_net_cells_solved :
  is_cube make_solved_cube = true /\
  net_within 2147483648 (MARGIN, MARGIN) /\
  exists screen,
    draw_cube_net make_solved_cube (MARGIN, MARGIN) = Ok screen /\
    length screen = 60 /\
    (forall face pos r c color_char,
       In (face, pos) NET_POS -> r < 3 -> c < 3 ->
       sticker make_solved_cube face r c = Some color_char ->
       In (DrawRect (default (30, 30, 30)%Z (COLOR_MAP !! color_char))
             (cell_rect (MARGIN, MARGIN) pos r c) 0) screen) /\
    (forall face pos,
       In (face, pos) NET_POS ->
       In (DrawRect (20, 20, 20)%Z (border_rect (MARGIN, MARGIN) pos) 2)
         screen).
Proof.
  assert (net_within 2147483648 (MARGIN, MARGIN)) as Hfit
    by (vm_compute; intuition discriminate).
  split; [vm_compute; reflexivity|]. split; [exact Hfit|].
  apply (draw_cube_net_cells make_solved_cube (MARGIN, MARGIN));
    [vm_compute; reflexivity | exact Hfit].
Defined.

Lemma bind_Raise_inv {A B : Type} (m : Result A) (k : A -> Result B) e :
  (m ≫= k) = Raise e -> m = Raise e \/ exists a, m = Ok a /\ k a = Raise e.
Proof. destruct m as [a|e']; [eauto | intros [= ->]; by left]. Qed.

Lemma for_each_Raise {A S : Type} (body : S -> A -> Result S) xs s e :
  for_each body xs s = Raise e ->
  exists s' x, In x xs /\ body s' x = Raise e.
Proof.
  revert s. induction xs as [|x xs IH]; intros s; cbn [for_each];
    [discriminate|].
  intros [H|(s1 & _ & H)]%bind_Raise_inv.
  - exists s, x. split; [by left | done].
  - destruct (IH _ H) as (s' & y & Hy & Hb). exists s', y.
    split; [by right | done].
Qed.

(** The three ways in which the drawing of a cell fails. *)
Lemma draw_cell_Raise cube top_left face pos r c e :
  r < 3 -> c < 3 ->
  draw_cell cube top_left face pos r c = Raise e ->
  (cube !! face = None /\ e = KeyError face) \/
  (e = IndexError /\
   exists grid, cube !! face = Some grid /\ is_grid grid = false) \/
  pygame_Rect (cell_rect top_left pos r c) = Raise e.
Proof.
  intros Hr Hc. unfold draw_cell.
  destruct (getitem cube face) as [grid|e'] eqn:Hf;
    [rewrite bind_Ok; apply getitem_Ok in Hf
    |rewrite bind_Raise; intros [= <-]; left; unfold getitem in Hf;
     destruct (cube !! face); [discriminate Hf | by injection Hf as <-]].
  intros H. right.
  destruct (is_grid grid) eqn:Hg.
  - right. destruct (is_grid_cell grid r c Hg Hr Hc) as [x Hx].
    unfold cell in Hx.
    destruct (grid !! r) as [line|] eqn:Hl; [|discriminate Hx].
    change (line !! c = Some x) in Hx.
    rewrite (proj2 (index_Ok _ _ _) Hl), bind_Ok in H.
    rewrite (proj2 (index_Ok _ _ _) Hx), bind_Ok in H.
    rewrite COLOR_MAP_X, bind_Ok in H.
    apply bind_Raise_inv in H as [H|(? & _ & H)]; [done|discriminate H].
  - apply bind_Raise_inv in H as [H|(line & _ & H)].
    { left. split; [|by exists grid]. unfold index in H.
      destruct (grid !! r); [discriminate H|congruence]. }
    apply bind_Raise_inv in H as [H|(x & _ & H)].
    { left. split; [|by exists grid]. unfold index in H.
      destruct (line !! c); [discriminate H|congruence]. }
    rewrite COLOR_MAP_X, bind_Ok in H.
    apply bind_Raise_inv in H as [H|(? & _ & H)]; [by right|discriminate H].
Qed.

(** A failure of [draw_cube_net] is the failure of one of its cells or of
    the rectangle of one of its borders. *)
Lemma draw_cube_net_Raise_call cube top_left e :
  draw_cube_net cube top_left = Raise e ->
  exists face pos,
    In (face, pos) NET_POS /\
    ((exists r c, r < 3 /\ c < 3 /\
        draw_cell cube top_left face pos r c = Raise e) \/
     pygame_Rect (border_rect top_left pos) = Raise e).
Proof.
  unfold draw_cube_net.
  intros (screen & [face pos] & Hin & H)%for_each_Raise.
  exists face, pos. split; [done|].
  apply bind_Raise_inv in H as [H|(? & _ & H)].
  - left.
    apply for_each_Raise in H as (screen1 & r & Hr & H).
    apply for_each_Raise in H as (screen2 & c & Hc & H).
    apply bind_Raise_inv in H as [H|(? & _ & H)]; [|discriminate H].
    exists r, c.
    split; [apply range3_lt; by apply list_elem_of_In|].
    split; [apply range3_lt; by apply list_elem_of_In|done].
  - right.
    apply bind_Raise_inv in H as [H|(? & _ & H)]; [done|discriminate H].
Qed.

Lemma pygame_Rect_cell_Raise top_left pos r c e :
  (0 <= pos.1 <= 2 /\ 0 <= pos.2 <= 3)%Z -> r < 3 -> c < 3 ->
  pygame_Rect (cell_rect top_left pos r c) = Raise e ->
  e = TypeError /\ ~ net_within 9223372036854775808 top_left.
Proof.
  destruct top_left as [tx ty], pos as [nr nc].
  unfold net_within, cell_rect, face_corner, CELL, PADDING. cbn [fst snd].
  intros Hpos Hr Hc [-> H]%pygame_Rect_Raise. split; [done|].
  intros Hfit. apply H. lia.
Qed.

Lemma pygame_Rect_border_Raise top_left pos e :
  (0 <= pos.1 <= 2 /\ 0 <= pos.2 <= 3)%Z ->
  pygame_Rect (border_rect top_left pos) = Raise e ->
  e = TypeError /\ ~ net_within 9223372036854775808 top_left.
Proof.
  destruct top_left as [tx ty], pos as [nr nc].
  unfold net_within, border_rect, face_corner, CELL, PADDING. cbn [fst snd].
  intros Hpos [-> H]%pygame_Rect_Raise. split; [done|].
  intros Hfit. apply H. lia.
Qed.

(** X16. [draw_cube_net] raises [KeyError] only for one of the six faces
    that the dictionary lacks, [IndexError] only when the entry of one of
    the six faces is not a 3x3 grid, and [TypeError] only when a coordinate
    of the net does not fit a C [long]; the lookup of ['X'] in [COLOR_MAP]
    never fails. *)
Theorem draw_cube_net_Raise cube top_left e :
  draw_cube_net cube top_left = Raise e ->
  (exists face,
     In face FACE_ORDER /\
     ((cube !! face = None /\ e = KeyError face) \/
      (e = IndexError /\
       exists grid, cube !! face = Some grid /\ is_grid grid = false))) \/
  (e = TypeError /\ ~ net_within 9223372036854775808 top_left).
Proof.
  intros (face & pos & Hin & H)%draw_cube_net_Raise_call.
  pose proof (NET_POS_range _ _ Hin) as Hpos.
  destruct H as [(r & c & Hr & Hc & H)|H].
  - apply draw_cell_Raise in H as [H|[H|H]]; [| | |exact Hr|exact Hc].
    + left. exists face. split; [by apply (NET_POS_faces face pos)|by left].
    + left. exists face. split; [by apply (NET_POS_faces face pos)|by right].
    + right. by apply (pygame_Rect_cell_Raise top_left pos r c).
  - right. by apply (pygame_Rect_border_Raise top_left pos).
Qed.

Lemma draw_cube_net_Raise_empty :
  draw_cube_net ∅ (0, 0)%Z = Raise (KeyError "U") /\
  ((exists face,
      In face FACE_ORDER /\
      (((∅ : gmap string (list (list string))) !! face = None /\
        KeyError "U" = KeyError face) \/
       (KeyError "U" = IndexError /\
        exists grid,
          (∅ : gmap string (list (list string))) !! face = Some grid /\
          is_grid grid = false))) \/
   (KeyError "U" = TypeError /\ ~ net_within 9223372036854775808 (0, 0)%Z)).
Proof.
  split; [reflexivity|].
  apply (draw_cube_net_Raise ∅ (0, 0)%Z (KeyError "U")). reflexivity.
Defined.

(** On a cube state, with coordinates that fit a C [long], the drawing
    never fails. *)
Lemma draw_cube_net_total cube top_left :
  is_cube cube = true -> net_within 9223372036854775808 top_left ->
  exists screen, draw_cube_net cube top_left = Ok screen.
Proof.
  intros Hc Hfit.
  destruct (draw_cube_net cube top_left) as [screen|e] eqn:H; [by exists screen|].
  exfalso.
  apply draw_cube_net_Raise_call in H as (face & pos & Hin & H).
  pose proof (NET_POS_range _ _ Hin) as Hpos.
  apply NET_POS_faces in Hin.
  unfold is_cube in Hc. rewrite forallb_forall in Hc. specialize (Hc _ Hin).
  destruct H as [(r & c & Hr & Hcol & H)|H].
  - apply draw_cell_Raise in H as [[Hf _]|[(_ & grid & Hf & Hg)|H]];
      [| | |exact Hr|exact Hcol].
    + rewrite Hf in Hc. congruence.
    + rewrite Hf in Hc. congruence.
    + by apply (pygame_Rect_cell_Raise top_left pos r c) in H as [_ H].
  - by apply (pygame_Rect_border_Raise top_left pos) in H as [_ H].
Qed.

(** ** The layout of the window *)

Lemma NET_POS_injective face1 face2 pos :
  In (face1, pos) NET_POS -> In (face2, pos) NET_POS -> face1 = face2.
Proof.
  cbn [In NET_POS].
  intros [H1|[H1|[H1|[H1|[H1|[H1|[]]]]]]] [H2|[H2|[H2|[H2|[H2|[H2|[]]]]]]];
    congruence.
Qed.

(** X17. Wherever the net is drawn, no two of its 54 cells share a pixel:
    the rectangles of two different cells, of the same face or of two faces,
    are disjoint. *)
Theorem cell_rects_disjoint top_left face1 pos1 r1 c1 face2 pos2 r2 c2 :
  In (face1, pos1) NET_POS -> In (face2, pos2) NET_POS ->
  r1 < 3 -> c1 < 3 -> r2 < 3 -> c2 < 3 ->
  (face1, r1, c1) ≠ (face2, r2, c2) ->
  disjoint_rects (cell_rect top_left pos1 r1 c1)
    (cell_rect top_left pos2 r2 c2).
Proof.
  intros H1 H2 Hr1 Hc1 Hr2 Hc2 Hne.
  assert (pos1 ≠ pos2 \/ r1 ≠ r2 \/ c1 ≠ c2) as Hd.
  { destruct (decide (pos1 = pos2)) as [->|]; [|by left]. right.
    rewrite (NET_POS_injective _ _ _ H1 H2) in Hne.
    destruct (decide (r1 = r2)) as [->|]; [|by left]. right.
    intros ->. by apply Hne. }
  destruct top_left as [tx ty], pos1 as [nr1 nc1], pos2 as [nr2 nc2].
  assert (nr1 ≠ nr2 \/ nc1 ≠ nc2 \/ r1 ≠ r2 \/ c1 ≠ c2) as Hd'.
  { destruct Hd as [Hd|[Hd|Hd]]; [|tauto..].
    destruct (decide (nr1 = nr2)) as [->|]; [|by left]. right. left.
    intros ->. by apply Hd. }
  unfold disjoint_rects, cell_rect, face_corner, CELL, PADDING. cbn [fst snd].
  lia.
Qed.

Lemma cell_rects_disjoint_example :
  disjoint_rects (cell_rect (MARGIN, MARGIN) (0, 1)%Z 2 0)
    (cell_rect (MARGIN, MARGIN) (1, 1)%Z 0 0).
Proof.
  apply (cell_rects_disjoint (MARGIN, MARGIN) "U" (0, 1)%Z 2 0 "F" (1, 1)%Z 0 0);
    [cbn; tauto | cbn; tauto | lia | lia | lia | lia | discriminate].
Defined.

(** X18. With the net at [(MARGIN, MARGIN)], as [main] draws it, every cell
    and every border lies in the window of 800 by 420 pixels; and the point
    at which [main] blits a line of the instructions lies in the rectangle
    of a face of the net exactly for the face B and the lines 6 to 10: the
    last five lines of the instructions are drawn over the face B. *)
Theorem window_layout :
  (forall face pos r c,
     In (face, pos) NET_POS -> r < 3 -> c < 3 ->
     on_screen (cell_rect (MARGIN, MARGIN) pos r c)) /\
  (forall face pos,
     In (face, pos) NET_POS -> on_screen (border_rect (MARGIN, MARGIN) pos)) /\
  length instruction_positions = 11 /\
  (forall i p face pos,
     instruction_positions !! i = Some p ->
     In (face, pos) NET_POS ->
     inside p (border_rect (MARGIN, MARGIN) pos) <-> face = "B" /\ 6 <= i).
Proof.
  split; [|split; [|split; [reflexivity|]]].
  - intros face pos r c Hin Hr Hc. cbn [In NET_POS] in Hin.
    destruct Hin as [H|[H|[H|[H|[H|[H|[]]]]]]]; injection H as <- <-.
    all: unfold on_screen, cell_rect, face_corner, CELL, PADDING, MARGIN,
      screen_w, screen_h; cbn [fst snd]; lia.
  - intros face pos Hin. cbn [In NET_POS] in Hin.
    destruct Hin as [H|[H|[H|[H|[H|[H|[]]]]]]]; injection H as <- <-.
    all: unfold on_screen, border_rect, face_corner, CELL, PADDING, MARGIN,
      screen_w, screen_h; cbn [fst snd]; lia.
  - intros i p face pos Hp Hin.
    assert (i < 11 /\ p = (430, 20 + Z.of_nat i * 22)%Z) as [Hi ->].
    { do 11 (destruct i as [|i]; [injection Hp as <-; split; [lia|reflexivity]|]).
      discriminate Hp. }
    cbn [In NET_POS] in Hin.
    destruct Hin as [H|[H|[H|[H|[H|[H|[]]]]]]]; injection H as <- <-.
    all: unfold inside, border_rect, face_corner, CELL, PADDING, MARGIN;
      cbn [fst snd].
    all: split; [intros ?; split; [first [reflexivity | lia] | lia]
                |intros [Hf ?]; first [discriminate Hf | lia]].
Qed.

(** ** The event loop *)

Lemma playable_grids cube f face :
  playable cube -> cube !! f = Some face -> is_grid face = true.
Proof.
  intros (Hc & Hd & _) Hf.
  assert (f ∈ dom cube) as Hin by (apply elem_of_dom; eauto).
  rewrite Hd, elem_of_list_to_set in Hin.
  unfold is_cube in Hc. rewrite forallb_forall in Hc.
  apply list_elem_of_In, Hc in Hin. by rewrite Hf in Hin.
Qed.

Lemma rotate_cube_face_playable cube f cw :
  playable cube -> In f FACE_ORDER ->
  exists cube', rotate_cube_face cube f cw = Ok cube' /\ playable cube'.
Proof.
  intros (Hc & Hd & Hp & Hk) Hf.
  destruct (rotate_cube_face_state cube f cw Hc Hf) as (cube' & H & Hc' & Hp').
  destruct (rotate_cube_face_centers cube f cw Hc Hf) as (cube2 & H2 & _ & Hk').
  assert (cube2 = cube') as -> by congruence.
  exists cube'. split; [done|]. split; [done|]. split.
  { by rewrite (rotate_cube_face_dom _ _ _ _ H). }
  split; [by rewrite Hp'|].
  intros k color Hin. rewrite Hk'. by apply Hk.
Qed.

Lemma scramble_cube_playable moves cube rng :
  playable cube ->
  exists cube', scramble_cube cube moves rng = Ok cube' /\ playable cube'.
Proof.
  revert cube rng.
  induction moves as [|moves IH]; intros cube rng Hc; cbn [scramble_cube].
  - by exists cube.
  - destruct (random_choice_In scramble_faces (rng 0)) as (f & -> & Hf);
      [done|].
    destruct (random_choice_In [true; false] (rng 1)) as (cw & -> & _);
      [done|].
    rewrite !bind_Ok.
    assert (In f FACE_ORDER) as Hf' by (cbn in Hf |- *; tauto).
    destruct (rotate_cube_face_playable cube f cw Hc Hf') as (cube1 & -> & Hc1).
    rewrite bind_Ok. by apply IH.
Qed.

Lemma is_solved_playable cube :
  playable cube -> exists solved, is_solved cube = Ok solved.
Proof.
  intros Hc. destruct (is_solved cube) as [solved|e] eqn:H; [by exists solved|].
  apply is_solved_Raise in H as (_ & f & face & Hf & Hg).
  by rewrite (playable_grids _ _ _ Hc Hf) in Hg.
Qed.

Lemma rotate_key_playable st face ch :
  playable (ui_cube st) -> In face FACE_ORDER ->
  exists st',
    rotate_key st face ch = Ok st' /\ playable (ui_cube st') /\
    ui_running st' = ui_running st.
Proof.
  intros Hc Hf. unfold rotate_key.
  destruct (rotate_cube_face_playable _ face (bool_decide (ch = face)) Hc Hf)
    as (cube' & -> & Hc').
  rewrite bind_Ok. eexists. split; [reflexivity|]. by split.
Qed.

Lemma handle_event_playable keys st event :
  playable (ui_cube st) ->
  exists st',
    handle_event keys st event = Ok st' /\ playable (ui_cube st') /\
    (ui_running st = false -> ui_running st' = false).
Proof.
  intros Hc. destruct event as [|ch key|]; cbn [handle_event].
  - eexists. split; [reflexivity|]. by split.
  - repeat case_bool_decide.
    1-6: match goal with
         | H : playable _ |- context [rotate_key ?s ?face ?c] =>
             let st' := fresh "st'" in
             let Hr := fresh "Hr" in
             destruct (rotate_key_playable s face c H) as (st' & -> & ? & Hr);
               [cbn; tauto|];
             exists st'; split; [done|]; split; [done|]; by rewrite Hr
         end.
    + destruct (scramble_cube_playable 25 (ui_cube st) (ui_random st) Hc)
        as (cube' & -> & Hc').
      rewrite bind_Ok. eexists. split; [reflexivity|]. by split.
    + eexists. split; [reflexivity|].
      split; [apply make_solved_cube_playable|done].
    + destruct (is_solved_playable _ Hc) as (solved & ->).
      rewrite bind_Ok. eexists. split; [reflexivity|]. by split.
    + eexists. split; [reflexivity|]. by split.
    + exists st. by split.
  - exists st. by split.
Qed.

Lemma handle_events_playable keys events st :
  playable (ui_cube st) ->
  exists st',
    for_each (handle_event keys) events st = Ok st' /\
    playable (ui_cube st') /\
    (ui_running st = false -> ui_running st' = false).
Proof.
  revert st. induction events as [|event events IH]; intros st Hc;
    cbn [for_each].
  - exists st. by split.
  - destruct (handle_event_playable keys st event Hc) as (st1 & -> & Hc1 & Hr1).
    rewrite bind_Ok.
    destruct (IH st1 Hc1) as (st' & -> & Hc' & Hr').
    exists st'. split; [done|]. split; [done|]. auto.
Qed.

Lemma main_loop_playable keys frames st :
  playable (ui_cube st) ->
  exists st', main_loop keys frames st = Ok st' /\ playable (ui_cube st').
Proof.
  revert st. induction frames as [|events frames IH]; intros st Hc;
    cbn [main_loop].
  - by exists st.
  - destruct (ui_running st); [|by exists st].
    destruct (draw_cube_net_total (ui_cube st) (MARGIN, MARGIN))
      as (screen & ->); [apply Hc | vm_compute; intuition discriminate|].
    rewrite bind_Ok.
    destruct (handle_events_playable keys events st Hc) as (st1 & -> & Hc1 & _).
    rewrite bind_Ok. by apply IH.
Qed.

(** X19. Whatever the key codes, the events and the draws of the random
    generator, no call of [main]'s loop raises an exception, and the cube
    that [main] holds is always a cube state with the six faces and no other
    key, whose stickers are those of the solved cube up to their order and
    whose centres hold their starting colours. *)
Theorem main_playable keys frames rng :
  exists st,
    main keys frames rng = Ok st /\
    is_cube (ui_cube st) = true /\
    dom (ui_cube st) = list_to_set FACE_ORDER /\
    stickers (ui_cube st) ≡ₚ stickers make_solved_cube /\
    forall f color,
      In (f, color) STARTING_COLORS ->
      sticker (ui_cube st) f 1 1 = Some color.
Proof.
  unfold main.
  destruct (main_loop_playable keys frames
              {| ui_cube := make_solved_cube;
                 ui_message := "Welcome! Press S to scramble.";
                 ui_running := true;
                 ui_random := rng |} make_solved_cube_playable)
    as (st & -> & Hc).
  exists st. split; [reflexivity|]. exact Hc.
Qed.

Lemma handle_event_running keys st event st' :
  handle_event keys st event = Ok st' ->
  ui_running st = false -> ui_running st' = false.
Proof.
  destruct event as [|ch key|]; cbn [handle_event].
  - by intros [= <-].
  - unfold rotate_key. repeat case_bool_decide.
    all: first [ by intros [= <-]
               | intros (? & _ & [= <-])%bind_Ok_inv; done ].
  - by intros [= <-].
Qed.

Lemma handle_events_running keys events st st' :
  for_each (handle_event keys) events st = Ok st' ->
  ui_running st = false -> ui_running st' = false.
Proof.
  revert st. induction events as [|event events IH]; intros st;
    cbn [for_each].
  - by intros [= <-].
  - intros (st1 & H1 & H)%bind_Ok_inv Hr.
    apply (IH _ H). by apply (handle_event_running _ _ _ _ H1).
Qed.

Lemma handle_events_quit keys events st st' :
  In QUIT events ->
  for_each (handle_event keys) events st = Ok st' -> ui_running st' = false.
Proof.
  revert st. induction events as [|event events IH]; intros st; [intros []|].
  cbn [for_each In].
  intros [->|Hin] (st1 & H1 & H)%bind_Ok_inv.
  - apply (handle_events_running _ _ _ _ H). by injection H1 as <-.
  - by apply (IH st1).
Qed.

(** X20. No event sets [running] back to [True]; and a frame whose events
    hold a [QUIT] is the last one: its events are all handled, and the events
    of later frames are never read. *)
Theorem main_loop_quit :
  (forall keys st event st',
     handle_event keys st event = Ok st' ->
     ui_running st = false -> ui_running st' = false) /\
  (forall keys events frames st,
     In QUIT events ->
     main_loop keys (events :: frames) st = main_loop keys [events] st /\
     forall st', main_loop keys [events] st = Ok st' -> ui_running st' = false).
Proof.
  split; [exact handle_event_running|].
  intros keys events frames st Hin. cbn [main_loop].
  destruct (ui_running st) eqn:Hr; [|split; [done|by intros st' [= <-]]].
  destruct (draw_cube_net (ui_cube st) (MARGIN, MARGIN)) as [screen|e];
    [rewrite !bind_Ok | split; [done|discriminate]].
  destruct (for_each (handle_event keys) events st) as [st1|e] eqn:H;
    [rewrite !bind_Ok | split; [done|discriminate]].
  pose proof (handle_events_quit _ _ _ _ Hin H) as Hq. split.
  - destruct frames as [|events' frames]; cbn [main_loop]; [done|].
    by rewrite Hq.
  - by intros st' [= <-].
Qed.

(** ** The strips of a turn *)

(** X21. The two shifts of the list of strips undo each other: on a
    non-empty list either shift succeeds, keeps the strips up to their
    order, and is undone by the shift the other way; on the empty list both
    raise [IndexError]. *)
Theorem shift_parts_inverse parts clockwise :
  (parts ≠ [] ->
   exists parts',
     shift_parts parts clockwise = Ok parts' /\
     shift_parts parts' (negb clockwise) = Ok parts /\
     parts' ≡ₚ parts) /\
  (parts = [] -> shift_parts parts clockwise = Raise IndexError).
Proof.
  split; [|intros ->; by destruct clockwise].
  intros Hne. destruct clockwise; cbn [negb].
  - destruct (exists_last Hne) as (l & a & ->).
    exists (a :: l). unfold shift_parts, index.
    rewrite length_app, removelast_last. cbn [length].
    replace (length l + 1 - 1) with (length l + 0) by lia.
    rewrite lookup_app_r, Nat.add_0_r, Nat.sub_diag by lia.
    cbn. split; [done|]. split; [done|].
    apply Permutation_cons_append.
  - destruct parts as [|a l]; [done|].
    exists (l ++ [a]). unfold shift_parts, index.
    rewrite length_app, removelast_last. cbn [length].
    replace (length l + 1 - 1) with (length l + 0) by lia.
    rewrite lookup_app_r, Nat.add_0_r, Nat.sub_diag by lia.
    cbn. split; [done|]. split; [done|].
    symmetry. apply Permutation_cons_append.
Qed.

(** X22. What [rotate_cube_face] writes to a strip is what it reads from
    it: after the three values [data] have been written to a strip, row or
    column, reversed or not, reading the strip gives [data], and every entry
    of the dictionary other than the face of the strip is unchanged. *)
Theorem write_strip_read_strip cube s data cube' :
  write_strip cube (s, data) = Ok cube' ->
  length data = 3 ->
  read_strip cube' s = Ok data /\
  forall k, k ≠ strip_face s -> cube' !! k = cube !! k.
Proof.
  intros H Hlen. split.
  - destruct s as [[[af typ] idx] rv]. unfold write_strip in H.
    apply bind_Ok_inv in H as (face & Hf & (face' & Hw & [= <-])%bind_Ok_inv).
    unfold read_strip, getitem. rewrite lookup_insert_eq, bind_Ok.
    assert (rev (rev data) = data) as Hrev by apply rev_involutive.
    destruct typ.
    + unfold set_row in Hw. apply store_Ok in Hw as [Hlt ->].
      unfold get_row, index. rewrite list_lookup_insert_eq by done.
      rewrite bind_Ok. by destruct rv; rewrite ?Hrev.
    + apply set_col_Ok in Hw
        as (r0 & r1 & r2 & rest & v0 & v1 & v2 & vs & -> & Hout & H0 & H1
            & H2 & ->).
      assert (vs = []) as ->.
      { assert (length (v0 :: v1 :: v2 :: vs) = 3) as Hl.
        { rewrite <- Hout. destruct rv; by rewrite ?length_rev. }
        destruct vs; [done | discriminate Hl]. }
      unfold get_col, range3, index. cbn.
      rewrite !list_lookup_insert_eq by done.
      destruct rv; [rewrite <- Hrev, Hout | rewrite Hout]; reflexivity.
  - intros k Hk. apply (write_strip_other _ _ _ _ H). cbn. congruence.
Qed.

Lemma write_strip_read_strip_numbered :
  write_strip {["U" := numbered]} (("U", col, 1, true), ["a"; "b"; "c"])
  = Ok {["U" := [["1"; "c"; "3"]; ["4"; "b"; "6"]; ["7"; "a"; "9"]]]} /\
  read_strip {["U" := [["1"; "c"; "3"]; ["4"; "b"; "6"]; ["7"; "a"; "9"]]]}
    ("U", col, 1, true)
  = Ok ["a"; "b"; "c"].
Proof.
  split; [reflexivity|].
  apply (write_strip_read_strip {["U" := numbered]} ("U", col, 1, true)
           ["a"; "b"; "c"]); reflexivity.
Defined.
